(** * csv_invoice_tool: normalisation, aggregation and invoicing

    A shallow embedding of [src/normalizer.py], [src/aggregator.py],
    [src/csv_loader.py] and the tax part of [src/invoice_generator.py],
    with the properties of their specification.

    - A Python [str] is the list of its Unicode code points ([list N]); the
      literals of the source are written as UTF-8 string literals and
      decoded by [Py.u].
    - A Python [int] is a [Z]; a [float] is a binary64 [spec_float].
    - A [dict] that is only looked up and updated is a [gmap] (equal when
      its entries are, whatever the insertion order); a [dict] that is
      iterated is the list of its items in iteration order.
    - A call that may raise returns a [Py.result]; [try]/[except ValueError]
      is [Py.try_except_ValueError].
    - The library functions the source calls ([str.strip], [int],
      [datetime.strptime], [strftime], [round], [Path.stem]) are modelled
      after CPython 3.11 with the Unicode 14 character tables.  The one
      point where platforms differ, how [strftime] prints a year below
      1000, is a parameter ([Py.year_style]).

    Part I holds the definitions, Part II the proofs. *)

From Stdlib Require Import ZArith NArith Lia.
From Stdlib Require Import Floats.SpecFloat.
From Stdlib Require DecimalPos.
From stdpp Require Import gmap list strings sorting.

Local Open Scope Z_scope.

(* ===================================================================== *)
(** * The Python runtime the source relies on                              *)
(* ===================================================================== *)

Module Py.

(** A [str]: a sequence of code points. *)
Abbreviation str := (list N).

(** ** Source literals *)

(** UTF-8 decoding of the bytes of a literal (well-formed input only: the
    literals of this file). *)
Fixpoint utf8 (bs : list N) : str :=
  match bs with
  | [] => []
  | b0 :: r =>
      if (b0 <? 0x80)%N then b0 :: utf8 r
      else if (b0 <? 0xE0)%N then
        match r with
        | b1 :: r1 => ((b0 mod 32) * 64 + b1 mod 64)%N :: utf8 r1
        | _ => []
        end
      else if (b0 <? 0xF0)%N then
        match r with
        | b1 :: b2 :: r2 =>
            ((b0 mod 16) * 4096 + (b1 mod 64) * 64 + b2 mod 64)%N :: utf8 r2
        | _ => []
        end
      else
        match r with
        | b1 :: b2 :: b3 :: r3 =>
            ((b0 mod 8) * 262144 + (b1 mod 64) * 4096
             + (b2 mod 64) * 64 + b3 mod 64)%N :: utf8 r3
        | _ => []
        end
  end.

Fixpoint bytes_of (s : string) : list N :=
  match s with
  | EmptyString => []
  | String a r => Ascii.N_of_ascii a :: bytes_of r
  end.

(** [u "..."] is the [str] a source literal denotes. *)
Definition u (s : string) : str := utf8 (bytes_of s).

(** One-character literals. *)
Definition chr (s : string) : N :=
  match u s with c :: _ => c | [] => 0%N end.

(** ** Exceptions *)

Inductive exn := ValueError | OverflowError.

Inductive result (A : Type) :=
| Ok (a : A)
| Raise (e : exn).
Arguments Ok {A} a.
Arguments Raise {A} e.

Definition bind {A B} (r : result A) (k : A -> result B) : result B :=
  match r with
  | Ok a => k a
  | Raise e => Raise e
  end.

(** [try: body except ValueError: handler]; any other exception goes on. *)
Definition try_except_ValueError {A} (body handler : result A) : result A :=
  match body with
  | Ok a => Ok a
  | Raise ValueError => handler
  | Raise e => Raise e
  end.

(** ** [str] methods *)

(** [str.isspace] on one code point ([Py_UNICODE_ISSPACE]). *)
Definition isspace (c : N) : bool :=
  ((9 <=? c) && (c <=? 13) || (28 <=? c) && (c <=? 32)
   || (c =? 0x85) || (c =? 0xA0) || (c =? 0x1680)
   || (0x2000 <=? c) && (c <=? 0x200A)
   || (c =? 0x2028) || (c =? 0x2029) || (c =? 0x202F)
   || (c =? 0x205F) || (c =? 0x3000))%N.

Fixpoint lstrip (s : str) : str :=
  match s with
  | [] => []
  | c :: r => if isspace c then lstrip r else s
  end.

Fixpoint rstrip (s : str) : str :=
  match s with
  | [] => []
  | c :: r =>
      match rstrip r with
      | [] => if isspace c then [] else [c]
      | r' => c :: r'
      end
  end.

(** [s.strip()] *)
Definition strip (s : str) : str := rstrip (lstrip s).

(** [s.replace(old, new)] for a one-character [old]. *)
Fixpoint replace (old : N) (new : str) (s : str) : str :=
  match s with
  | [] => []
  | c :: r => (if (c =? old)%N then new else [c]) ++ replace old new r
  end.

(** [s.split(sep)] for a one-character [sep]: never the empty list. *)
Fixpoint split (sep : N) (s : str) : list str :=
  match s with
  | [] => [[]]
  | c :: r =>
      if (c =? sep)%N then [] :: split sep r
      else match split sep r with
           | h :: t => (c :: h) :: t
           | [] => [[c]]
           end
  end.

(** [sep.join(parts)] *)
Fixpoint join (sep : str) (parts : list str) : str :=
  match parts with
  | [] => []
  | [p] => p
  | p :: rest => p ++ sep ++ join sep rest
  end.

(** [s.rfind(c)] for a one-character [c]; [None] stands for [-1]. *)
Fixpoint rfind (c : N) (s : str) : option nat :=
  match s with
  | [] => None
  | x :: r =>
      match rfind c r with
      | Some i => Some (S i)
      | None => if (x =? c)%N then Some 0%nat else None
      end
  end.

(** [d.get(k, default)] *)
Definition get {V} (d : gmap str V) (k : str) (dflt : V) : V :=
  default dflt (d !! k).


(** ** [int(s)] for a [str], base 10

    CPython's [PyLong_FromUnicodeObject]: the text is first brought to ASCII
    (a non-ASCII space becomes a blank, a non-ASCII decimal digit its ASCII
    digit, anything else non-ASCII a question mark), then read as: ASCII
    blanks, an optional sign, digits with single underscores between them,
    ASCII blanks.  More than [int_max_str_digits] digits is a [ValueError]
    too. *)

(** The code points with decimal value 0 (Unicode 14); each starts a run of
    ten digits. *)
Definition decimal_zeros : list N :=
  [ 0x30; 0x660; 0x6f0; 0x7c0; 0x966; 0x9e6; 0xa66; 0xae6; 0xb66; 0xbe6;
    0xc66; 0xce6; 0xd66; 0xde6; 0xe50; 0xed0; 0xf20; 0x1040; 0x1090;
    0x17e0; 0x1810; 0x1946; 0x19d0; 0x1a80; 0x1a90; 0x1b50; 0x1bb0; 0x1c40;
    0x1c50; 0xa620; 0xa8d0; 0xa900; 0xa9d0; 0xa9f0; 0xaa50; 0xabf0; 0xff10;
    0x104a0; 0x10d30; 0x11066; 0x110f0; 0x11136; 0x111d0; 0x112f0; 0x11450;
    0x114d0; 0x11650; 0x116c0; 0x11730; 0x118e0; 0x11950; 0x11c50; 0x11d50;
    0x11da0; 0x16a60; 0x16ac0; 0x16b50; 0x1d7ce; 0x1d7d8; 0x1d7e2; 0x1d7ec;
    0x1d7f6; 0x1e140; 0x1e2f0; 0x1e950; 0x1fbf0 ]%N.

(** [Py_UNICODE_TODECIMAL] *)
Definition todecimal (c : N) : option N :=
  match List.find (fun z => (z <=? c) && (c <? z + 10))%N decimal_zeros with
  | Some z => Some (c - z)%N
  | None => None
  end.

(** [str.isdecimal] on one code point; what [\d] matches in [re]. *)
Definition isdecimal (c : N) : bool :=
  match todecimal c with Some _ => true | None => false end.

(** [_PyUnicode_TransformDecimalAndSpaceToASCII], one code point. *)
Definition to_ascii (c : N) : N :=
  if (c <? 127)%N then c
  else if isspace c then 32%N
  else match todecimal c with
       | Some d => (48 + d)%N
       | None => 63%N
       end.

(** [Py_ISSPACE] *)
Definition ascii_isspace (c : N) : bool :=
  ((9 <=? c) && (c <=? 13) || (c =? 32))%N.

Fixpoint skip_ascii_space (s : str) : str :=
  match s with
  | [] => []
  | c :: r => if ascii_isspace c then skip_ascii_space r else s
  end.

Definition ascii_digit (c : N) : option Z :=
  if ((48 <=? c) && (c <=? 57))%N then Some (Z.of_N (c - 48)) else None.

(** The scan over digits and underscores: the value read, the number of
    digits, the last character read and the unread rest; [None] when two
    underscores meet. *)
Fixpoint scan_digits (s : str) (prev : N) (acc : Z) (digits : nat)
  : option (Z * nat * N * str) :=
  match s with
  | [] => Some (acc, digits, prev, [])
  | c :: r =>
      if (c =? 95)%N then
        if (prev =? 95)%N then None else scan_digits r c acc digits
      else
        match ascii_digit c with
        | Some d => scan_digits r c (10 * acc + d) (S digits)
        | None => Some (acc, digits, prev, s)
        end
  end.

(** [sys.int_info.default_max_str_digits] *)
Definition int_max_str_digits : nat := 4300.

Definition int (s : str) : result Z :=
  let t := skip_ascii_space (to_ascii <$> s) in
  let '(negative, t) :=
    match t with
    | c :: r => if (c =? 43)%N then (false, r)
                else if (c =? 45)%N then (true, r)
                else (false, t)
    | [] => (false, t)
    end in
  match t with
  | c :: _ =>
      if (c =? 95)%N then Raise ValueError
      else
        match scan_digits t 0%N 0 0 with
        | Some (n, digits, prev, rest) =>
            if (prev =? 95)%N then Raise ValueError
            else if (int_max_str_digits <? digits)%nat then Raise ValueError
            else if (digits =? 0)%nat then Raise ValueError
            else match skip_ascii_space rest with
                 | [] => Ok (if negative then - n else n)
                 | _ :: _ => Raise ValueError
                 end
        | None => Raise ValueError
        end
  | [] => Raise ValueError
  end.

(** ** [datetime.strptime] and [datetime.strftime]

    Only the directives [%Y], [%m], [%d] and literal characters without
    case, which is all the source's formats use. *)

Inductive directive := DY | Dm | Dd.

Inductive fitem :=
| Dir (d : directive)
| Lit (c : N).

(** A format string as its items; [None] for a directive outside the three
    (for which [strptime] raises [ValueError]). *)
Fixpoint parse_format (f : str) : option (list fitem) :=
  match f with
  | [] => Some []
  | c :: r =>
      if (c =? 37)%N then
        match r with
        | x :: r' =>
            match
              (if (x =? 89)%N then Some DY
               else if (x =? 109)%N then Some Dm
               else if (x =? 100)%N then Some Dd
               else None), parse_format r'
            with
            | Some d, Some items => Some (Dir d :: items)
            | _, _ => None
            end
        | [] => None
        end
      else
        match parse_format r with
        | Some items => Some (Lit c :: items)
        | None => None
        end
  end.

(** The pieces of [_strptime.TimeRE]'s regular expressions. *)
Inductive atom :=
| Char (c : N)
| Range (lo hi : N)
| AnyDigit.

Definition atom_matches (a : atom) (c : N) : bool :=
  match a with
  | Char x => (c =? x)%N
  | Range lo hi => ((lo <=? c) && (c <=? hi))%N
  | AnyDigit => isdecimal c
  end.

(** [TimeRE]: the alternatives of a directive, in the order they are tried.
    - [%Y]: [\d\d\d\d]
    - [%m]: [1[0-2]|0[1-9]|[1-9]]
    - [%d]: [3[0-1]|[1-2]\d|0[1-9]|[1-9]| [1-9]] *)
Definition alternatives (d : directive) : list (list atom) :=
  match d with
  | DY => [[AnyDigit; AnyDigit; AnyDigit; AnyDigit]]
  | Dm => [[Char 49; Range 48 50]; [Char 48; Range 49 57]; [Range 49 57]]
  | Dd => [[Char 51; Range 48 49]; [Range 49 50; AnyDigit];
           [Char 48; Range 49 57]; [Range 49 57]; [Char 32; Range 49 57]]
  end%N.

(** One alternative against the front of [s]: the text it matched and the
    rest. *)
Fixpoint match_atoms (atoms : list atom) (s : str) : option (str * str) :=
  match atoms with
  | [] => Some ([], s)
  | a :: atoms' =>
      match s with
      | c :: r =>
          if atom_matches a c then
            match match_atoms atoms' r with
            | Some (txt, rest) => Some (c :: txt, rest)
            | None => None
            end
          else None
      | [] => None
      end
  end.

(** The first alternative after which [k] succeeds (backtracking). *)
Fixpoint first_alternative {A} (alts : list (list atom)) (s : str)
    (k : str -> str -> option A) : option A :=
  match alts with
  | [] => None
  | alt :: alts' =>
      match match match_atoms alt s with
            | Some (txt, rest) => k txt rest
            | None => None
            end
      with
      | Some a => Some a
      | None => first_alternative alts' s k
      end
  end.

(** [format_regex.match(data_string)]: the groups and the unmatched rest. *)
Fixpoint re_match (items : list fitem) (s : str)
  : option (list (directive * str) * str) :=
  match items with
  | [] => Some ([], s)
  | Lit c :: items' =>
      match s with
      | x :: r => if (x =? c)%N then re_match items' r else None
      | [] => None
      end
  | Dir d :: items' =>
      first_alternative (alternatives d) s
        (fun txt rest =>
           match re_match items' rest with
           | Some (groups, rest') => Some ((d, txt) :: groups, rest')
           | None => None
           end)
  end.

Record datetime := mkDatetime { year : Z; month : Z; day : Z }.

Definition is_leap (y : Z) : bool :=
  (y mod 4 =? 0) && (negb (y mod 100 =? 0) || (y mod 400 =? 0)).

Definition days_in_month (y m : Z) : Z :=
  if m =? 2 then (if is_leap y then 29 else 28)
  else if (m =? 4) || (m =? 6) || (m =? 9) || (m =? 11) then 30
  else 31.

(** The range checks of the [date] constructor. *)
Definition make_date (y m d : Z) : result datetime :=
  if negb ((1 <=? y) && (y <=? 9999)) then Raise ValueError
  else if negb ((1 <=? m) && (m <=? 12)) then Raise ValueError
  else if negb ((1 <=? d) && (d <=? days_in_month y m)) then Raise ValueError
  else Ok (mkDatetime y m d).

(** The dates the [date] constructor accepts. *)
Definition valid_date (dt : datetime) : Prop :=
  1 <= year dt <= 9999 /\ 1 <= month dt <= 12
  /\ 1 <= day dt <= days_in_month (year dt) (month dt).

(** The loop of [_strptime] over the groups found. *)
Fixpoint read_groups (groups : list (directive * str)) (y m d : Z)
  : result (Z * Z * Z) :=
  match groups with
  | [] => Ok (y, m, d)
  | (DY, txt) :: g => bind (int txt) (fun v => read_groups g v m d)
  | (Dm, txt) :: g => bind (int txt) (fun v => read_groups g y v d)
  | (Dd, txt) :: g => bind (int txt) (fun v => read_groups g y m v)
  end.

(** [datetime.strptime(data_string, format)] *)
Definition strptime (data_string format : str) : result datetime :=
  match parse_format format with
  | None => Raise ValueError
  | Some items =>
      match re_match items data_string with
      | None => Raise ValueError
      | Some (groups, rest) =>
          match rest with
          | _ :: _ => Raise ValueError
          | [] =>
              bind (read_groups groups 1900 1 1) (fun '(y, m, d) =>
              make_date y m d)
          end
      end
  end.

(** The decimal digits of [n mod 10^w], most significant first. *)
Fixpoint zero_padded (w : nat) (n : Z) : str :=
  match w with
  | O => []
  | S w' => zero_padded w' (n / 10) ++ [(48 + Z.to_N (n mod 10))%N]
  end.

Fixpoint drop_zeros (s : str) : str :=
  match s with
  | [] => []
  | c :: r => if (c =? 48)%N then drop_zeros r else s
  end.

(** How the C library's [strftime] prints [%Y]: four digits, zero-filled,
    or (glibc) the plain number; CPython passes the directive through. *)
Inductive year_style := ZeroFilled | Plain.

Definition format_directive (ys : year_style) (dt : datetime) (d : directive)
  : str :=
  match d with
  | DY => match ys with
          | ZeroFilled => zero_padded 4 (year dt)
          | Plain => drop_zeros (zero_padded 4 (year dt))
          end
  | Dm => zero_padded 2 (month dt)
  | Dd => zero_padded 2 (day dt)
  end.

Fixpoint format_items (ys : year_style) (dt : datetime) (items : list fitem)
  : str :=
  match items with
  | [] => []
  | Lit c :: r => c :: format_items ys dt r
  | Dir d :: r => format_directive ys dt d ++ format_items ys dt r
  end.

(** [dt.strftime(format)] *)
Definition strftime (ys : year_style) (dt : datetime) (format : str)
  : result str :=
  match parse_format format with
  | None => Raise ValueError
  | Some items => Ok (format_items ys dt items)
  end.

(** ** [float]: IEEE binary64, as [spec_float] with [prec = 53],
    [emax = 1024] *)

(** [float(n)] for an [int]: nearest, ties to even; too large raises. *)
Definition float_of_int (n : Z) : result spec_float :=
  match binary_normalize 53 1024 n 0 false with
  | S754_infinity _ => Raise OverflowError
  | f => Ok f
  end.

Definition float_mul (x y : spec_float) : spec_float := SFmul 53 1024 x y.

(** The integer nearest to [m * 2^e] for [m > 0], ties to the even one. *)
Definition nearest_even (m e : Z) : Z :=
  if 0 <=? e then m * 2 ^ e
  else
    let d := 2 ^ (- e) in
    let q := m / d in
    match (2 * (m mod d) ?= d) with
    | Lt => q
    | Gt => q + 1
    | Eq => if Z.even q then q else q + 1
    end.

(** [round(x)] for a [float], one argument: an [int], ties to even. *)
Definition round (x : spec_float) : result Z :=
  match x with
  | S754_zero _ => Ok 0
  | S754_infinity _ => Raise OverflowError
  | S754_nan => Raise ValueError
  | S754_finite s m e => Ok (cond_Zopp s (nearest_even (Zpos m) e))
  end.

End Py.

(* ===================================================================== *)
(** * The Python runtime: integers as text                                 *)
(* ===================================================================== *)

Module PyText.
Import Py.

(** The characters of a decimal numeral. *)
Fixpoint uint_chars (d : Decimal.uint) : str :=
  match d with
  | Decimal.Nil => []
  | Decimal.D0 r => 48%N :: uint_chars r
  | Decimal.D1 r => 49%N :: uint_chars r
  | Decimal.D2 r => 50%N :: uint_chars r
  | Decimal.D3 r => 51%N :: uint_chars r
  | Decimal.D4 r => 52%N :: uint_chars r
  | Decimal.D5 r => 53%N :: uint_chars r
  | Decimal.D6 r => 54%N :: uint_chars r
  | Decimal.D7 r => 55%N :: uint_chars r
  | Decimal.D8 r => 56%N :: uint_chars r
  | Decimal.D9 r => 57%N :: uint_chars r
  end.

(** The decimal digits of [|n|], without leading zeros. *)
Definition decimal_digits (n : Z) : str :=
  match n with
  | Z0 => [48%N]
  | Zpos p | Zneg p => uint_chars (Pos.to_uint p)
  end.

Definition sign_chars (n : Z) : str := if n <? 0 then [45%N] else [].

(** [str(n)] for an [int]: more than [int_max_str_digits] digits is a
    [ValueError] here as in [int(s)]. *)
Definition to_str (n : Z) : result str :=
  let digits := decimal_digits n in
  if (int_max_str_digits <? length digits)%nat then Raise ValueError
  else Ok (sign_chars n ++ digits).



(** [a <= b] on [str]: code point by code point, a prefix first. *)
Fixpoint str_le (a b : str) : bool :=
  match a, b with
  | [], _ => true
  | _ :: _, [] => false
  | x :: a', y :: b' => (x <? y)%N || ((x =? y)%N && str_le a' b')
  end.

(** [a <= b] on tuples [(str, int)]. *)
Definition item_leb (a b : str * Z) : bool :=
  if decide (fst a = fst b) then (snd a <=? snd b)
  else str_le (fst a) (fst b).

Definition item_le (a b : str * Z) : Prop := item_leb a b = true.

Global Instance item_le_dec a b : Decision (item_le a b).
Proof. unfold item_le. apply _. Defined.

(** [sorted(items)] for a list of tuples [(str, int)]. *)
Definition sorted (items : list (str * Z)) : list (str * Z) :=
  merge_sort item_le items.

End PyText.

(* ===================================================================== *)
(** * src/normalizer.py                                                    *)
(* ===================================================================== *)

Module Normalizer.
Import Py.

Definition COLUMN_MAP : gmap str str :=
  list_to_map
    [ (u "date", u "date");
      (u "day", u "date");
      (u "日付", u "date");
      (u "product", u "item");
      (u "item_name", u "item");
      (u "商品名", u "item");
      (u "price", u "price");
      (u "単価", u "price");
      (u "quantity", u "quantity");
      (u "数量", u "quantity");
      (u "amount", u "amount");
      (u "金額", u "amount") ].

(** [NormalizedRow], a frozen dataclass. *)
Record NormalizedRow := mkRow {
  date : str;
  store : str;
  item : str;
  quantity : Z;
  amount : Z;
}.

Definition is_empty (s : str) : bool :=
  match s with [] => true | _ :: _ => false end.

Definition _to_int (value : str) : result (option Z) :=
  let value := strip value in
  if is_empty value then Ok None
  else
    let value := replace (chr ",") (u "") value in
    try_except_ValueError
      (bind (int value) (fun n => Ok (Some n)))
      (Ok None).

Definition patterns : list str := [u "%Y-%m-%d"; u "%Y/%m/%d"; u "%Y.%m.%d"].

(** A raw row: the items of the [dict], in iteration order.  (The keys of a
    [dict] are distinct; nothing below depends on it.) *)
Abbreviation RawRow := (list (str * str)).

(** The loop that fills [unified]: one raw column. *)
Definition unify_step (unified : gmap str str) (kv : str * str)
  : gmap str str :=
  match COLUMN_MAP !! strip (fst kv) with
  | Some key => if is_empty key then unified
                else <[key := strip (snd kv)]> unified
  | None => unified
  end.

Definition unify (raw : RawRow) : gmap str str := foldl unify_step ∅ raw.

Section Platform.

(** How the platform's [strftime] prints a year. *)
Variable year_fmt : year_style.

(** The [for p in patterns] loop of [_parse_date]. *)
Fixpoint parse_with (value : str) (ps : list str) : result (option str) :=
  match ps with
  | [] => Ok None
  | p :: ps' =>
      try_except_ValueError
        (bind (strptime value p) (fun dt =>
         bind (strftime year_fmt dt (u "%Y-%m-%d")) (fun s =>
         Ok (Some s))))
        (parse_with value ps')
  end.

Definition _parse_date (value : str) : result (option str) :=
  let value := strip value in
  if is_empty value then Ok None
  else parse_with value patterns.

Definition normalize_row (raw : RawRow) (store : str)
  : result (option NormalizedRow * option str) :=
  let unified := unify raw in
  bind (_parse_date (get unified (u "date") (u ""))) (fun date =>
  let item := strip (get unified (u "item") (u "")) in
  bind (_to_int (get unified (u "quantity") (u ""))) (fun qty =>
  bind (_to_int (get unified (u "amount") (u ""))) (fun amount =>
  bind (_to_int (get unified (u "price") (u ""))) (fun price =>
  match date with
  | None => Ok (None, Some (u "dateが不正/空です"))
  | Some date =>
      if is_empty item then Ok (None, Some (u "itemが空です"))
      else
        match qty with
        | None => Ok (None, Some (u "quantityが不正/空です"))
        | Some qty =>
            match amount with
            | Some amount => Ok (Some (mkRow date store item qty amount), None)
            | None =>
                match price with
                | None =>
                    Ok (None,
                        Some (u "amountもpriceも不正/空です（計算できません）"))
                | Some price =>
                    Ok (Some (mkRow date store item qty (price * qty)), None)
                end
            end
        end
  end)))).

End Platform.

End Normalizer.

(* ===================================================================== *)
(** * src/aggregator.py                                                    *)
(* ===================================================================== *)

Module Aggregator.
Import Py Normalizer.

Record AggregationResult := mkAgg {
  by_store : gmap str Z;
  by_item : gmap str Z;
}.

(** [d[k] += a] on a [defaultdict(int)]. *)
Definition add_to (d : gmap str Z) (k : str) (a : Z) : gmap str Z :=
  <[k := get d k 0 + a]> d.

(** The body of the [for r in rows] loop. *)
Definition step (acc : AggregationResult) (r : NormalizedRow)
  : AggregationResult :=
  {| by_store := add_to (by_store acc) (store r) (amount r);
     by_item := add_to (by_item acc) (item r) (amount r) |}.

Definition aggregate (rows : list NormalizedRow) : AggregationResult :=
  foldl step {| by_store := ∅; by_item := ∅ |} rows.

End Aggregator.

(* ===================================================================== *)
(** * src/csv_loader.py                                                    *)
(* ===================================================================== *)

Module CsvLoader.
Import Py.

(** A [Path], by its final component. *)
Record Path := mkPath { name : str }.

(** [PurePath.stem]: the name without its last suffix. *)
Definition stem (p : Path) : str :=
  match rfind (chr ".") (name p) with
  | Some i =>
      if ((0 <? i) && (i <? length (name p) - 1))%nat then take i (name p)
      else name p
  | None => name p
  end.

(** The names [input_dir.glob(f"*_{month_suffix}.csv")] selects. *)
Definition month_suffix (month : str) : str :=
  replace (chr "-") (u "_") month.

Definition glob_matches (month : str) (p : Path) : Prop :=
  exists prefix : str,
    name p = prefix ++ u "_" ++ month_suffix month ++ u ".csv".

Definition infer_store_name (csv_path : Path) : str :=
  let name := stem csv_path in
  let parts := split (chr "_") name in
  if (3 <=? length parts)%nat
  then join (u "_") (take (length parts - 2) parts)
  else name.

(** A row as [csv.DictReader] yields it: the columns in order, each a name
    and a value.  The name is [None] for the surplus fields of a long line
    (whose value, a list, is never read) and the value is [None] for the
    missing fields of a short line. *)
Abbreviation ReaderRow := (list (option str * option str)).

(** The dict comprehension of [iter_csv_rows]: the [None] name is dropped, a
    [None] value becomes the empty string. *)
Definition clean_row (row : ReaderRow) : list (str * str) :=
  omap (fun kv => match fst kv with
                  | Some k => Some (k, default (u "") (snd kv))
                  | None => None
                  end) row.

(** [iter_csv_rows], on the rows the reader yields: numbered from 2. *)
Definition iter_csv_rows (reader : list ReaderRow) : list (Z * list (str * str)) :=
  imap (fun i row => (Z.of_nat i + 2, clean_row row)) reader.

End CsvLoader.

(* ===================================================================== *)
(** * src/invoice_generator.py                                             *)
(* ===================================================================== *)

Module InvoiceGenerator.
Import Py.

Record Invoice := mkInvoice {
  invoice_no : str;
  issue_date : str;
  bill_to : str;
  subtotal : Z;
  tax_rate : spec_float;
  tax : Z;
  total : Z;
}.

(** The [float] the literal [0.10] denotes: [0x1.999999999999ap-4]. *)
Definition tax_rate_default : spec_float :=
  S754_finite false 0x1999999999999A (-56).

(** [int(round(subtotal * tax_rate))] *)
Definition _calc_tax (subtotal : Z) (tax_rate : spec_float) : result Z :=
  bind (float_of_int subtotal) (fun x =>
  round (float_mul x tax_rate)).

Definition _make_invoice_no (store month : str) : str :=
  let yyyymm := replace (chr "-") (u "") month in
  let safe := replace (chr " ") (u "_") store in
  u "INV-" ++ yyyymm ++ u "-" ++ safe.

(** [build_invoices]; [issue] is what [date.today()] gave. *)
Fixpoint build_invoices (issue : str) (summary_rows : list (str * Z))
    (month : str) (tax_rate : spec_float) : result (list Invoice) :=
  match summary_rows with
  | [] => Ok []
  | (store, subtotal) :: rest =>
      let inv_no := _make_invoice_no store month in
      bind (_calc_tax subtotal tax_rate) (fun tax =>
      let total := subtotal + tax in
      bind (build_invoices issue rest month tax_rate) (fun invoices =>
      Ok (mkInvoice inv_no issue store subtotal tax_rate tax total
          :: invoices)))
  end.


(** The loop of [load_summary_by_store] over the rows [csv.DictReader]
    yields for summary_by_store.csv.  A row is the mapping of its named
    columns; [row.get(k) or ""] reads a column that is missing (or [None])
    as the empty string. *)
Fixpoint load_summary_by_store (reader : list (gmap str str))
  : result (list (str * Z)) :=
  match reader with
  | [] => Ok []
  | row :: rest =>
      let store := strip (get row (u "store") (u "")) in
      let total_amount := strip (get row (u "total_amount") (u "")) in
      if Normalizer.is_empty store || Normalizer.is_empty total_amount
      then load_summary_by_store rest
      else
        bind (int total_amount) (fun n =>
        bind (load_summary_by_store rest) (fun rows =>
        Ok ((store, n) :: rows)))
  end.

End InvoiceGenerator.

(* ===================================================================== *)
(** * src/main.py                                                          *)
(* ===================================================================== *)

Module Main.
Import Py PyText Normalizer Aggregator CsvLoader InvoiceGenerator.

(** The two lists [main] fills.  [normalized] holds whatever
    [normalize_row] returned as its first component. *)
Record Collected := mkCollected {
  normalized : list (option NormalizedRow);
  error_rows : list (gmap str str);
}.

Section Run.

(** How the platform's [strftime] prints a year. *)
Variable year_fmt : year_style.

(** [str(raw_row)], the [repr] of a [dict] of strings: it never raises and
    nothing below depends on what it prints. *)
Variable repr_row : RawRow -> str.

(** The body of the inner loop of [main], for one row of one file. *)
Definition process_row (csv_name store : str) (acc : Collected)
    (numbered : Z * RawRow) : result Collected :=
  let line_no := fst numbered in
  let raw_row := snd numbered in
  bind (normalize_row year_fmt raw_row store) (fun out =>
  match snd out with
  | Some (c :: r) =>
      let err := c :: r in
      bind (to_str line_no) (fun line =>
      Ok (mkCollected
            (normalized acc)
            (error_rows acc ++
               [ <[u "file" := csv_name]>
                 (<[u "line" := line]>
                 (<[u "store" := store]>
                 (<[u "reason" := err]>
                 (<[u "raw" := repr_row raw_row]> ∅)))) ])))
  | _ => Ok (mkCollected (normalized acc ++ [fst out]) (error_rows acc))
  end).

Fixpoint process_rows (csv_name store : str) (acc : Collected)
    (rows : list (Z * RawRow)) : result Collected :=
  match rows with
  | [] => Ok acc
  | numbered :: rest =>
      bind (process_row csv_name store acc numbered) (fun acc' =>
      process_rows csv_name store acc' rest)
  end.

(** The outer loop: a file is its path and the rows its reader yields. *)
Fixpoint process_files (acc : Collected)
    (files : list (Path * list ReaderRow)) : result Collected :=
  match files with
  | [] => Ok acc
  | (csv_path, reader) :: rest =>
      let store := infer_store_name csv_path in
      bind (process_rows (name csv_path) store acc (iter_csv_rows reader))
        (fun acc' => process_files acc' rest)
  end.

(** Steps 1 to 4 of [main]: both lists start empty. *)
Definition collect (files : list (Path * list ReaderRow)) : result Collected :=
  process_files (mkCollected [] []) files.

End Run.

(** The row [main] writes to normalized.csv for a record: a [dict], as its
    items in insertion order. *)
Definition normalized_csv_row (r : NormalizedRow)
  : result (list (str * str)) :=
  bind (to_str (quantity r)) (fun q =>
  bind (to_str (amount r)) (fun a =>
  Ok [ (u "date", date r); (u "store", store r); (u "item", item r);
       (u "quantity", q); (u "amount", a) ])).

(** [aggregate(normalized)]: [None] where the list holds a [None] (there
    the source fails with an [AttributeError]). *)
Definition aggregate_collected (acc : Collected) : option AggregationResult :=
  aggregate <$> mapM id (normalized acc).

(** The rows of a summary file:
    [[{key: k, "total_amount": str(v)} for k, v in sorted(d.items())]]. *)
Fixpoint summary_rows_of (key : str) (items : list (str * Z))
  : result (list (gmap str str)) :=
  match items with
  | [] => Ok []
  | (k, v) :: rest =>
      bind (to_str v) (fun s =>
      bind (summary_rows_of key rest) (fun rows =>
      Ok (<[u "total_amount" := s]> (<[key := k]> ∅) :: rows)))
  end.

Definition summary_rows (key : str) (d : gmap str Z)
  : result (list (gmap str str)) :=
  summary_rows_of key (sorted (map_to_list d)).

End Main.

(* ===================================================================== *)
(** * The specification's vocabulary                                       *)
(* ===================================================================== *)

(** Definitions that follow the words of the specification; the theorems
    below relate them to the functions above. *)
Module Spec.
Import Py Normalizer.

(** A canonical field of a raw row "after column reconciliation and value
    trimming"; an absent field is the empty string. *)
Definition field (raw : RawRow) (name : string) : str :=
  get (unify raw) (u name) (u "").

(** A raw column "maps to" a canonical field. *)
Definition maps_to (column : str) (canonical : str) : Prop :=
  COLUMN_MAP !! strip column = Some canonical.

(** A library call "fails": it raises [ValueError]. *)
Definition fails {A} (r : result A) : bool :=
  match r with
  | Raise ValueError => true
  | _ => false
  end.

(** The date "is empty or fails all three formats". *)
Definition date_invalid (v : str) : bool :=
  is_empty v || forallb (fun p => fails (strptime v p)) patterns.

(** "Removes every comma anywhere in the value". *)
Definition delete_commas (s : str) : str :=
  List.filter (fun c => negb (c =? chr ",")%N) s.

(** The integer a trimmed field denotes once its commas are deleted; [None]
    when it is "empty/non-numeric". *)
Definition integer_of (v : str) : option Z :=
  if is_empty v then None
  else match int (delete_commas v) with
       | Ok n => Some n
       | Raise _ => None
       end.

Definition not_integer (v : str) : bool :=
  match integer_of v with Some _ => false | None => true end.

(** The amount of an accepted row: the parsed amount field, or else the
    parsed price times the quantity. *)
Definition derived_amount (raw : RawRow) (qty : Z) : option Z :=
  match integer_of (field raw "amount") with
  | Some a => Some a
  | None =>
      match integer_of (field raw "price") with
      | Some p => Some (p * qty)
      | None => None
      end
  end.

(** The four checks, in their fixed order. *)
Inductive check := CheckDate | CheckItem | CheckQuantity | CheckAmount.

(** The reason returned for each check (the texts of the source). *)
Definition reason_of (c : check) : str :=
  match c with
  | CheckDate => u "dateが不正/空です"
  | CheckItem => u "itemが空です"
  | CheckQuantity => u "quantityが不正/空です"
  | CheckAmount => u "amountもpriceも不正/空です（計算できません）"
  end.

(** The first check a row fails, if any. *)
Definition first_failing (raw : RawRow) : option check :=
  if date_invalid (field raw "date") then Some CheckDate
  else if is_empty (field raw "item") then Some CheckItem
  else if not_integer (field raw "quantity") then Some CheckQuantity
  else if not_integer (field raw "amount") && not_integer (field raw "price")
       then Some CheckAmount
  else None.

(** "Date in YYYY-MM-DD textual form": four digits, a hyphen, two digits, a
    hyphen, two digits. *)
Definition is_ascii_digit (c : N) : bool := ((48 <=? c) && (c <=? 57))%N.

Definition is_iso_date (s : str) : bool :=
  match s with
  | [y1; y2; y3; y4; h1; m1; m2; h2; d1; d2] =>
      is_ascii_digit y1 && is_ascii_digit y2 && is_ascii_digit y3
      && is_ascii_digit y4 && (h1 =? chr "-")%N
      && is_ascii_digit m1 && is_ascii_digit m2 && (h2 =? chr "-")%N
      && is_ascii_digit d1 && is_ascii_digit d2
  | _ => false
  end.

(** The items of the format ["%Y-%m-%d"]. *)
Definition iso_items : list fitem := [Dir DY; Lit 45; Dir Dm; Lit 45; Dir Dd]%N.

(** A month "supplied as YYYY-MM". *)
Definition is_month (s : str) : bool :=
  match s with
  | [y1; y2; y3; y4; h; m1; m2] =>
      is_ascii_digit y1 && is_ascii_digit y2 && is_ascii_digit y3
      && is_ascii_digit y4 && (h =? chr "-")%N
      && is_ascii_digit m1 && is_ascii_digit m2
  | _ => false
  end.

(** [num / den] "rounded to nearest with ties away from zero" ([den > 0]). *)
Definition round_half_away (num den : Z) : Z :=
  Z.sgn num * ((2 * Z.abs num + den) / (2 * den)).

(** The tax the specification states for the rate 0.10. *)
Definition tax_half_away (subtotal : Z) : Z :=
  round_half_away (subtotal * 10) 100.

(** [sum(d.values())] *)
Definition sum_values (d : gmap str Z) : Z :=
  map_fold (fun _ v acc => v + acc) 0 d.

(** [sum(r.amount for r in rows)] *)
Definition sum_amounts (rows : list NormalizedRow) : Z :=
  foldr (fun r acc => amount r + acc) 0 rows.

(** The sum of [amount] over the rows whose [key] (store or item) is [k]. *)
Definition total_for (key : NormalizedRow -> str) (k : str)
    (rows : list NormalizedRow) : Z :=
  foldr (fun r acc => if decide (key r = k) then amount r + acc else acc)
        0 rows.

(** What a totals mapping must hold for [k]: no entry when no row has the
    key, else the sum over the rows that have it. *)
Definition expected_total (key : NormalizedRow -> str) (k : str)
    (rows : list NormalizedRow) : option Z :=
  if decide (k ∈ key <$> rows) then Some (total_for key k rows) else None.

(** Merging two totals mappings "via the same commutative addition". *)
Definition merge_totals (d1 d2 : gmap str Z) : gmap str Z :=
  union_with (fun a b => Some (a + b)) d1 d2.

(** A raw column whose trimmed name is a known synonym. *)
Definition known_column (kv : str * str) : bool :=
  match COLUMN_MAP !! strip (fst kv) with
  | Some _ => true
  | None => false
  end.


(** Some column of the row maps to the canonical field. *)
Definition has_column (raw : RawRow) (canonical : string) : Prop :=
  Exists (fun kv => maps_to (fst kv) (u canonical)) raw.

Global Instance directive_eq_dec : EqDecision directive.
Proof. solve_decision. Defined.

(** The check run over all months and days: the month and day part of a
    printed date is matched back, by the regular expression of
    [%Y-%m-%d], as the two groups it was printed from. *)
Definition month_day_rematch (m d : Z) : bool :=
  bool_decide
    (re_match [Lit 45; Dir Dm; Lit 45; Dir Dd]%N
       (45%N :: zero_padded 2 m ++ 45%N :: zero_padded 2 d)
     = Some ([(Dm, zero_padded 2 m); (Dd, zero_padded 2 d)], [])).

(** The trimmed store and total of a summary row, and whether the row is
    kept (neither is empty). *)
Definition summary_store (row : gmap str str) : str :=
  strip (get row (u "store") (u "")).

Definition summary_total (row : gmap str str) : str :=
  strip (get row (u "total_amount") (u "")).

Definition summary_kept (row : gmap str str) : bool :=
  negb (is_empty (summary_store row) || is_empty (summary_total row)).

(** A data row of an input file, as the driver sees it: the name of its
    file, the store label of its file, its line number and its columns. *)
Record SourceRow := mkSourceRow {
  src_file : str;
  src_store : str;
  src_line : Z;
  src_raw : RawRow;
}.

Definition file_rows (file : CsvLoader.Path * list CsvLoader.ReaderRow)
  : list SourceRow :=
  (fun numbered =>
     mkSourceRow (CsvLoader.name (fst file))
                 (CsvLoader.infer_store_name (fst file))
                 (fst numbered) (snd numbered))
  <$> CsvLoader.iter_csv_rows (snd file).

Definition all_rows (files : list (CsvLoader.Path * list CsvLoader.ReaderRow))
  : list SourceRow :=
  List.flat_map file_rows files.

(** The records of the accepted rows, and the rejected rows with their
    reasons, both in the order of the rows. *)
Definition accepted (ys : year_style) (rows : list SourceRow)
  : list NormalizedRow :=
  omap (fun r => match normalize_row ys (src_raw r) (src_store r) with
                 | Ok (Some row, None) => Some row
                 | _ => None
                 end) rows.

Definition rejected (ys : year_style) (rows : list SourceRow)
  : list (SourceRow * str) :=
  omap (fun r => match normalize_row ys (src_raw r) (src_store r) with
                 | Ok (None, Some reason) => Some (r, reason)
                 | _ => None
                 end) rows.

(** An entry of errors.csv describes a rejected row. *)
Definition describes (repr_row : RawRow -> str)
    (rej : SourceRow * str) (err : gmap str str) : Prop :=
  err !! u "file" = Some (src_file (fst rej))
  /\ (exists line, PyText.to_str (src_line (fst rej)) = Ok line
                   /\ err !! u "line" = Some line)
  /\ err !! u "store" = Some (src_store (fst rej))
  /\ err !! u "reason" = Some (snd rej)
  /\ err !! u "raw" = Some (repr_row (src_raw (fst rej))).

(** [a < b] on [str]. *)
Definition str_lt (a b : str) : Prop := PyText.str_le a b = true /\ a <> b.

(** What reading a summary back gives for one entry of the totals: the
    trimmed store with its total, or nothing when the store is blank. *)
Definition summary_entry (item : str * Z) : option (str * Z) :=
  if is_empty (strip (fst item)) then None
  else Some (strip (fst item), snd item).

(** A month or a day as it is written in a file: with two digits, or
    without the leading zero. *)
Definition written (padded : bool) (n : Z) : str :=
  if padded then zero_padded 2 n else drop_zeros (zero_padded 2 n).

(** A date written year first with one separator, the year with four
    digits. *)
Definition date_text (sep : N) (pm pd : bool) (dt : datetime) : str :=
  zero_padded 4 (year dt)
  ++ sep :: written pm (month dt) ++ sep :: written pd (day dt).

(** The separators of [patterns]: hyphen, slash, full stop. *)
Definition separators : list N := [45; 47; 46]%N.

(** The format string of [patterns] with the given separator. *)
Definition pattern_of (sep : N) : str :=
  [37; 89; sep; 37; 109; sep; 37; 100]%N.

(** The check run over all separators, months and days: the month and day
    part of a written date is matched, by the regular expression of the
    pattern with that separator, as the two groups it was written from. *)
Definition written_rematch (sep : N) (pm pd : bool) (m d : Z) : bool :=
  bool_decide
    (re_match [Lit sep; Dir Dm; Lit sep; Dir Dd]
       (sep :: written pm m ++ sep :: written pd d)
     = Some ([(Dm, written pm m); (Dd, written pd d)], [])).

(** A raw row with one column renamed. *)
Definition rename_column (old new : str) (raw : RawRow) : RawRow :=
  (fun kv => if decide (fst kv = old) then (new, snd kv) else kv) <$> raw.

End Spec.

(* ===================================================================== *)
(** * Concrete inputs                                                      *)
(* ===================================================================== *)

Module Examples.
Import Py Normalizer.

(** The accepted row of the specification's first scenario. *)
Definition coffee_row : RawRow :=
  [ (u "日付", u "2026/01/05"); (u "商品名", u "Coffee");
    (u "数量", u "3"); (u "金額", u "1,500") ].

(** A return: the quantity is negative, the amount comes from the price. *)
Definition return_row : RawRow :=
  [ (u "date", u "2026-01-01"); (u "product", u "Y");
    (u "quantity", u "-2"); (u "price", u "50") ].

(** A date before the year 1000. *)
Definition old_year_row : RawRow :=
  [ (u "date", u "0999-01-01"); (u "product", u "Y");
    (u "quantity", u "2"); (u "price", u "50") ].

(** Commas that are no thousands separators. *)
Definition comma_row : RawRow :=
  [ (u "date", u "2026-01-01"); (u "product", u "Tea");
    (u "quantity", u "1,2"); (u "amount", u ",100") ].

(** Two raw columns for the canonical field [date]. *)
Definition two_dates_row : RawRow :=
  [ (u "date", u "2026-01-01"); (u "item_name", u "Tea");
    (u "day", u " 2026-02-02 "); (u "quantity", u "1"); (u "amount", u "7") ].

(** No amount and no price. *)
Definition no_amount_row : RawRow :=
  [ (u "date", u "2026-01-01"); (u "product", u "Y"); (u "quantity", u "2") ].

(** The records [normalize_row] builds from the rows above. *)
Definition coffee_record : NormalizedRow :=
  mkRow (u "2026-01-05") (u "store_a") (u "Coffee") 3 1500.

Definition return_record : NormalizedRow :=
  mkRow (u "2026-01-01") (u "store_a") (u "Y") (-2) (-100).

Definition old_year_record : NormalizedRow :=
  mkRow (u "999-01-01") (u "store_a") (u "Y") 2 100.

Definition comma_record : NormalizedRow :=
  mkRow (u "2026-01-01") (u "store_a") (u "Tea") 12 100.

(** One input file of two data rows, the second without a date. *)
Definition example_files : list (CsvLoader.Path * list CsvLoader.ReaderRow) :=
  [ (CsvLoader.mkPath (u "store_a_2026_01.csv"),
     [ [ (Some (u "date"), Some (u "2026/01/05"));
         (Some (u "product"), Some (u "Coffee"));
         (Some (u "quantity"), Some (u "3"));
         (Some (u "amount"), Some (u "1,500"));
         (None, None) ];
       [ (Some (u "date"), Some (u ""));
         (Some (u "product"), Some (u "Tea"));
         (Some (u "quantity"), None);
         (Some (u "amount"), None) ] ]) ].

End Examples.

(* ===================================================================== *)
(** * Aggregation: conservation and order-independence                     *)
(* ===================================================================== *)

Module AggregatorProofs.
Import Py Normalizer Aggregator Spec.

Lemma sum_values_empty : sum_values ∅ = 0.
Proof. apply map_fold_empty. Qed.

Lemma sum_values_insert_fresh (d : gmap str Z) k v :
  d !! k = None -> sum_values (<[k := v]> d) = v + sum_values d.
Proof.
  intros Hk. unfold sum_values.
  rewrite map_fold_insert_L; [reflexivity | intros; lia | exact Hk].
Qed.

Lemma sum_values_delete (d : gmap str Z) k v :
  d !! k = Some v -> sum_values d = v + sum_values (delete k d).
Proof.
  intros Hk. unfold sum_values.
  rewrite (map_fold_delete_L _ _ k v d); [reflexivity | intros; lia | exact Hk].
Qed.

(** One [+=] adds exactly its amount to the sum of the values, whether the
    key is new or not. *)
Lemma sum_values_add_to d k a :
  sum_values (add_to d k a) = sum_values d + a.
Proof.
  unfold add_to, get. destruct (d !! k) as [v|] eqn:Hk; simpl.
  - rewrite <- insert_delete_eq.
    rewrite sum_values_insert_fresh by apply lookup_delete_eq.
    rewrite (sum_values_delete d k v Hk). lia.
  - rewrite sum_values_insert_fresh by exact Hk. lia.
Qed.

Lemma add_to_lookup d k a j :
  add_to d k a !! j = if decide (k = j) then Some (get d k 0 + a) else d !! j.
Proof. unfold add_to. apply lookup_insert. Qed.

(** Two [+=] commute, on the same key as on different ones. *)
Lemma add_to_comm d k1 a1 k2 a2 :
  add_to (add_to d k1 a1) k2 a2 = add_to (add_to d k2 a2) k1 a1.
Proof.
  apply map_eq. intros j. rewrite !add_to_lookup. unfold get.
  rewrite !add_to_lookup.
  repeat case_decide; subst; try congruence; simpl; f_equal; lia.
Qed.

Lemma step_comm acc r1 r2 : step (step acc r1) r2 = step (step acc r2) r1.
Proof. unfold step; simpl. f_equal; apply add_to_comm. Qed.

Lemma foldl_step_sums acc rows :
  sum_values (by_store (foldl step acc rows))
    = sum_values (by_store acc) + sum_amounts rows
  /\ sum_values (by_item (foldl step acc rows))
    = sum_values (by_item acc) + sum_amounts rows.
Proof.
  revert acc. induction rows as [|r rows IH]; intros acc; simpl.
  - lia.
  - destruct (IH (step acc r)) as [IHs IHi]. rewrite IHs, IHi. simpl.
    rewrite !sum_values_add_to. lia.
Qed.

Lemma foldl_step_perm rows1 rows2 :
  rows1 ≡ₚ rows2 -> forall acc, foldl step acc rows1 = foldl step acc rows2.
Proof.
  induction 1 as [|r l1 l2 _ IH|r1 r2 l|l1 l2 l3 _ IH1 _ IH2];
    intros acc; simpl.
  - reflexivity.
  - apply IH.
  - now rewrite step_comm.
  - now rewrite IH1.
Qed.

(** C1 (conservation): for every sequence of records, the per-store totals
    and the per-item totals of [aggregate] both sum to the sum of [amount]
    over the records; on the empty sequence both mappings are empty and the
    three sums are 0. *)
Theorem aggregate_conservation :
  (forall rows : list NormalizedRow,
      sum_values (by_store (aggregate rows)) = sum_amounts rows
      /\ sum_values (by_item (aggregate rows)) = sum_amounts rows
      /\ sum_values (by_store (aggregate rows))
         = sum_values (by_item (aggregate rows)))
  /\ by_store (aggregate []) = ∅
  /\ by_item (aggregate []) = ∅
  /\ sum_values (by_store (aggregate [])) = 0
  /\ sum_values (by_item (aggregate [])) = 0
  /\ sum_amounts [] = 0.
Proof.
  split.
  - intros rows. unfold aggregate.
    destruct (foldl_step_sums {| by_store := ∅; by_item := ∅ |} rows)
      as [Hs Hi].
    simpl in Hs, Hi. rewrite sum_values_empty in Hs, Hi.
    rewrite Hs, Hi. lia.
  - repeat split; try reflexivity; apply sum_values_empty.
Qed.

(** C2 (order-independence): aggregating any permutation of a sequence of
    records gives the same [by_store] and the same [by_item] mapping. *)
Theorem aggregate_permutation (rows1 rows2 : list NormalizedRow) :
  rows1 ≡ₚ rows2 ->
  by_store (aggregate rows1) = by_store (aggregate rows2)
  /\ by_item (aggregate rows1) = by_item (aggregate rows2).
Proof.
  intros Hp. unfold aggregate. now rewrite (foldl_step_perm _ _ Hp).
Qed.

(** The specification's scenario: two rows for store A, one for store B. *)
Example aggregate_scenario :
  by_store (aggregate [mkRow (u "2026-01-01") (u "A") (u "x") 1 100;
                       mkRow (u "2026-01-02") (u "A") (u "y") 1 250;
                       mkRow (u "2026-01-03") (u "B") (u "x") 1 50])
  = {[ u "A" := 350; u "B" := 50 ]}.
Proof. now vm_compute. Qed.

(** Two rows of the specification's scenario, in both orders. *)
Lemma aggregate_permutation_witness :
  by_store (aggregate [mkRow (u "2026-01-01") (u "A") (u "x") 1 100;
                       mkRow (u "2026-01-03") (u "B") (u "y") 1 50])
  = by_store (aggregate [mkRow (u "2026-01-03") (u "B") (u "y") 1 50;
                         mkRow (u "2026-01-01") (u "A") (u "x") 1 100])
  /\ by_item (aggregate [mkRow (u "2026-01-01") (u "A") (u "x") 1 100;
                         mkRow (u "2026-01-03") (u "B") (u "y") 1 50])
  = by_item (aggregate [mkRow (u "2026-01-03") (u "B") (u "y") 1 50;
                        mkRow (u "2026-01-01") (u "A") (u "x") 1 100]).
Proof. apply aggregate_permutation, perm_swap. Defined.

End AggregatorProofs.

(* ===================================================================== *)
(** * Facts about the runtime model                                        *)
(* ===================================================================== *)

Module PyFacts.
Import Py.

(** Case analysis on the next [match] or [if] of the goal or a
    hypothesis, dropping the impossible cases. *)
Ltac split_cases :=
  repeat (case_match; simplify_eq/=; try congruence).

(** ** [strip] *)

Lemma lstrip_head s :
  lstrip s = [] \/ exists c r, lstrip s = c :: r /\ isspace c = false.
Proof.
  induction s as [|c r IH]; simpl; [now left|].
  destruct (isspace c) eqn:Hc; [exact IH|]. right. eauto.
Qed.

Lemma rstrip_keeps_head c r :
  isspace c = false -> exists r', rstrip (c :: r) = c :: r'.
Proof.
  intros Hc. simpl. destruct (rstrip r); rewrite ?Hc; eauto.
Qed.

Lemma rstrip_idem s : rstrip (rstrip s) = rstrip s.
Proof.
  induction s as [|c r IH]; simpl; [reflexivity|].
  destruct (rstrip r) as [|x r'] eqn:Hr.
  - destruct (isspace c) eqn:Hc; simpl; [reflexivity|]. now rewrite Hc.
  - change (rstrip (c :: x :: r')) with
      (match rstrip (x :: r') with
       | [] => if isspace c then [] else [c]
       | y :: t => c :: y :: t
       end).
    now rewrite IH.
Qed.

(** Trimming twice is trimming once. *)
Lemma strip_idem s : strip (strip s) = strip s.
Proof.
  unfold strip. destruct (lstrip_head s) as [He|(c & r & He & Hc)];
    rewrite He.
  - reflexivity.
  - destruct (rstrip_keeps_head c r Hc) as [r' Hr]. rewrite Hr.
    simpl lstrip. rewrite Hc, <- Hr. apply rstrip_idem.
Qed.

Lemma strip_empty : strip [] = [].
Proof. reflexivity. Qed.

(** ** [replace] *)

Lemma replace_app old new s t :
  replace old new (s ++ t) = replace old new s ++ replace old new t.
Proof.
  induction s as [|c r IH]; simpl; [reflexivity|].
  now rewrite IH, app_assoc.
Qed.

Lemma replace_absent old new s :
  Forall (fun c => c <> old) s -> replace old new s = s.
Proof.
  induction 1 as [|c r Hc _ IH]; simpl; [reflexivity|].
  apply N.eqb_neq in Hc. now rewrite Hc, IH.
Qed.

(** Replacing a character by nothing deletes it everywhere. *)
Lemma replace_by_empty old s :
  replace old [] s = List.filter (fun c => negb (c =? old)%N) s.
Proof.
  induction s as [|c r IH]; simpl; [reflexivity|].
  rewrite IH. now destruct (c =? old)%N.
Qed.

(** ** [int] raises nothing but [ValueError] *)

Lemma int_raises s e : int s = Raise e -> e = ValueError.
Proof. unfold int. intros H. split_cases. Qed.

(** ** [strptime] *)

Lemma read_groups_raises groups y m d e :
  read_groups groups y m d = Raise e -> e = ValueError.
Proof.
  revert y m d. induction groups as [|[[] txt] g IH]; intros y m d; simpl;
    [discriminate| | |];
    (destruct (int txt) as [v|e'] eqn:Hi; simpl;
     [apply IH | intros [= <-]; exact (int_raises _ _ Hi)]).
Qed.

Lemma make_date_raises y m d e : make_date y m d = Raise e -> e = ValueError.
Proof. unfold make_date. intros H. split_cases. Qed.

Lemma strptime_raises s f e : strptime s f = Raise e -> e = ValueError.
Proof.
  unfold strptime. intros H. split_cases.
  destruct (read_groups _ _ _ _) as [[[y m] d]|e'] eqn:Hg; simpl in H.
  - exact (make_date_raises _ _ _ _ H).
  - injection H as <-. exact (read_groups_raises _ _ _ _ _ Hg).
Qed.

Lemma make_date_valid y m d dt : make_date y m d = Ok dt -> valid_date dt.
Proof.
  unfold make_date, valid_date. intros H. split_cases. simpl. lia.
Qed.

Lemma strptime_valid s f dt : strptime s f = Ok dt -> valid_date dt.
Proof.
  unfold strptime. intros H. split_cases.
  destruct (read_groups _ _ _ _) as [[[y m] d]|e'] eqn:Hg; simpl in H;
    [|discriminate].
  exact (make_date_valid _ _ _ _ H).
Qed.

Lemma days_in_month_le y m : days_in_month y m <= 31.
Proof. unfold days_in_month. split_cases; lia. Qed.

End PyFacts.

(* ===================================================================== *)
(** * Row normalisation                                                    *)
(* ===================================================================== *)

Module NormalizerProofs.
Import Py Normalizer Spec Examples PyFacts.

(** ** The integer parser *)

(** [_to_int] never raises: it trims, gives up on the empty string, deletes
    every comma and reads what is left with [int]. *)
Lemma to_int_spec v : _to_int v = Ok (integer_of (strip v)).
Proof.
  unfold _to_int, integer_of, delete_commas.
  destruct (is_empty (strip v)); [reflexivity|].
  change (u "") with (@nil N). rewrite replace_by_empty.
  destruct (int _) as [n|e] eqn:Hi; simpl; [reflexivity|].
  now rewrite (int_raises _ _ Hi).
Qed.

(** ** The date parser *)

Lemma strftime_iso ys dt :
  strftime ys dt (u "%Y-%m-%d") = Ok (format_items ys dt iso_items).
Proof. reflexivity. Qed.

Lemma parse_with_cases ys value ps :
  (forallb (fun p => fails (strptime value p)) ps = true
   /\ parse_with ys value ps = Ok None)
  \/ (forallb (fun p => fails (strptime value p)) ps = false
      /\ exists dt p, In p ps /\ strptime value p = Ok dt
         /\ parse_with ys value ps = Ok (Some (format_items ys dt iso_items))).
Proof.
  induction ps as [|p ps IH]; simpl; [now left|].
  destruct (strptime value p) as [dt|e] eqn:Hp; simpl.
  - right. split; [reflexivity|]. exists dt, p. auto.
  - rewrite (strptime_raises _ _ _ Hp). simpl.
    destruct IH as [[Hall Hn]|[Hex (dt & q & Hq & Hs & Hr)]].
    + left. auto.
    + right. split; [exact Hex|]. exists dt, q. auto.
Qed.

Lemma parse_date_cases ys v :
  (date_invalid (strip v) = true /\ _parse_date ys v = Ok None)
  \/ (date_invalid (strip v) = false
      /\ exists dt p, In p patterns /\ strptime (strip v) p = Ok dt
         /\ _parse_date ys v = Ok (Some (format_items ys dt iso_items))).
Proof.
  unfold _parse_date, date_invalid.
  destruct (is_empty (strip v)); cbn [orb]; [now left|].
  apply parse_with_cases.
Qed.

Lemma is_ascii_digit_mod n : is_ascii_digit (48 + Z.to_N (n mod 10)) = true.
Proof.
  pose proof (Z.mod_pos_bound n 10 ltac:(lia)).
  unfold is_ascii_digit. apply andb_true_iff.
  split; apply N.leb_le; lia.
Qed.

(** What [strftime] prints is in YYYY-MM-DD form when the year is zero-filled
    or has four digits of its own. *)
Lemma format_iso ys dt :
  valid_date dt -> ys = ZeroFilled \/ 1000 <= year dt ->
  is_iso_date (format_items ys dt iso_items) = true.
Proof.
  intros (Hy & Hm & Hd) Hys.
  assert (Hzf : is_iso_date (format_items ZeroFilled dt iso_items) = true).
  { cbn [format_items iso_items format_directive zero_padded app is_iso_date].
    rewrite !is_ascii_digit_mod. reflexivity. }
  destruct ys; [exact Hzf|].
  destruct Hys as [|Hys]; [discriminate|].
  cbn [format_items iso_items format_directive zero_padded app] in *.
  assert (Hne : (48 + Z.to_N (year dt / 10 / 10 / 10 mod 10) =? 48)%N = false).
  { apply N.eqb_neq.
    assert (1 <= year dt / 10 / 10 / 10 mod 10)
      by (Z.to_euclidean_division_equations; lia).
    lia. }
  cbn [drop_zeros]. rewrite Hne. exact Hzf.
Qed.

(** ** Column reconciliation *)

Lemma COLUMN_MAP_canonical k key :
  COLUMN_MAP !! k = Some key ->
  key ∈ [u "date"; u "item"; u "price"; u "quantity"; u "amount"].
Proof.
  intros H. apply elem_of_list_to_map_2 in H.
  repeat (apply elem_of_cons in H as [[= _ <-]|H]; [set_solver|]).
  now apply elem_of_nil in H.
Qed.

Lemma COLUMN_MAP_truthy k key :
  COLUMN_MAP !! k = Some key -> is_empty key = false.
Proof.
  intros H. apply COLUMN_MAP_canonical in H.
  repeat (apply elem_of_cons in H as [->|H]; [reflexivity|]).
  now apply elem_of_nil in H.
Qed.

Lemma unify_step_maps unified k v key :
  maps_to k key -> unify_step unified (k, v) = <[key := strip v]> unified.
Proof.
  unfold maps_to, unify_step. simpl. intros H. rewrite H.
  now rewrite (COLUMN_MAP_truthy _ _ H).
Qed.

Lemma unify_step_other unified kv key :
  ~ maps_to (fst kv) key -> unify_step unified kv !! key = unified !! key.
Proof.
  unfold maps_to, unify_step. intros H.
  destruct (COLUMN_MAP !! strip (fst kv)) as [key'|]; [|reflexivity].
  destruct (is_empty key'); [reflexivity|].
  apply lookup_insert_ne. congruence.
Qed.

Lemma foldl_unify_step_other raw unified key :
  Forall (fun kv => ~ maps_to (fst kv) key) raw ->
  foldl unify_step unified raw !! key = unified !! key.
Proof.
  intros H. revert unified.
  induction H as [|kv raw Hkv _ IH]; intros unified; simpl; [reflexivity|].
  rewrite IH. now apply unify_step_other.
Qed.

Lemma foldl_unify_step_trimmed raw unified :
  (forall k v, unified !! k = Some v -> strip v = v) ->
  forall k v, foldl unify_step unified raw !! k = Some v -> strip v = v.
Proof.
  revert unified. induction raw as [|kv raw IH]; intros unified Hu; simpl;
    [exact Hu|].
  apply IH. intros k v. unfold unify_step.
  destruct (COLUMN_MAP !! strip (fst kv)) as [key|]; [|apply Hu].
  destruct (is_empty key); [apply Hu|].
  rewrite lookup_insert. case_decide.
  - intros [= <-]. apply strip_idem.
  - apply Hu.
Qed.

(** Every reconciled field is trimmed. *)
Lemma field_trimmed raw name : strip (field raw name) = field raw name.
Proof.
  unfold field, get. destruct (unify raw !! u name) as [v|] eqn:Hv; simpl.
  - apply (foldl_unify_step_trimmed raw ∅) with (k := u name); [|exact Hv].
    intros k w Hk. now rewrite lookup_empty in Hk.
  - reflexivity.
Qed.

(** A field no raw column maps to is the empty string. *)
Lemma field_absent raw name :
  Forall (fun kv => ~ maps_to (fst kv) (u name)) raw -> field raw name = [].
Proof.
  intros H. unfold field, get, unify.
  now rewrite foldl_unify_step_other, lookup_empty.
Qed.

(** ** [normalize_row], check by check *)

Lemma normalize_row_cases ys raw store :
  exists d,
    _parse_date ys (field raw "date") = Ok d
    /\ normalize_row ys raw store
       = Ok match d with
            | None => (None, Some (reason_of CheckDate))
            | Some date =>
                if is_empty (field raw "item")
                then (None, Some (reason_of CheckItem))
                else
                  match integer_of (field raw "quantity") with
                  | None => (None, Some (reason_of CheckQuantity))
                  | Some qty =>
                      match derived_amount raw qty with
                      | None => (None, Some (reason_of CheckAmount))
                      | Some amt =>
                          (Some (mkRow date store (field raw "item") qty amt),
                           None)
                      end
                  end
            end.
Proof.
  unfold normalize_row, derived_amount.
  fold (field raw "date") (field raw "item") (field raw "quantity")
       (field raw "amount") (field raw "price").
  rewrite !to_int_spec, !field_trimmed.
  destruct (parse_date_cases ys (field raw "date"))
    as [[_ Hd]|[_ (dt & p & _ & _ & Hd)]]; rewrite Hd; cbn [bind reason_of].
  - exists None. split; reflexivity.
  - eexists; split; [reflexivity|]. cbv beta.
    destruct (is_empty (field raw "item")); [reflexivity|].
    destruct (integer_of (field raw "quantity")); [|reflexivity].
    destruct (integer_of (field raw "amount")); [reflexivity|].
    destruct (integer_of (field raw "price")); reflexivity.
Qed.

(** A row that fails a check is rejected with the reason of the first
    check it fails. *)
Lemma normalize_row_rejects ys raw store c :
  first_failing raw = Some c ->
  normalize_row ys raw store = Ok (None, Some (reason_of c)).
Proof.
  unfold first_failing, not_integer. intros Hc.
  destruct (normalize_row_cases ys raw store) as (d & Hd & ->).
  destruct (parse_date_cases ys (field raw "date"))
    as [[Hi Hp]|[Hi (dt & p & _ & _ & Hp)]];
    rewrite field_trimmed in Hi; rewrite Hi in Hc;
    rewrite Hp in Hd; injection Hd as <-.
  - now injection Hc as <-.
  - unfold derived_amount.
    destruct (is_empty (field raw "item")); [now injection Hc as <-|].
    destruct (integer_of (field raw "quantity")); [|now injection Hc as <-].
    destruct (integer_of (field raw "amount")); [discriminate|].
    destruct (integer_of (field raw "price")); [discriminate|].
    now injection Hc as <-.
Qed.

(** A row that fails no check is accepted; its record is built from the
    first format that parses the date, the trimmed item, the parsed
    quantity and the derived amount. *)
Lemma normalize_row_accepts ys raw store :
  first_failing raw = None ->
  exists dt p qty amt,
    In p patterns
    /\ strptime (field raw "date") p = Ok dt
    /\ is_empty (field raw "item") = false
    /\ integer_of (field raw "quantity") = Some qty
    /\ derived_amount raw qty = Some amt
    /\ normalize_row ys raw store
       = Ok (Some (mkRow (format_items ys dt iso_items) store
                         (field raw "item") qty amt), None).
Proof.
  unfold first_failing, not_integer. intros Hc.
  destruct (normalize_row_cases ys raw store) as (d & Hd & ->).
  destruct (parse_date_cases ys (field raw "date"))
    as [[Hi Hp]|[Hi (dt & p & Hin & Hs & Hp)]];
    rewrite field_trimmed in *; rewrite Hi in Hc; [discriminate|].
  rewrite Hp in Hd; injection Hd as <-.
  exists dt, p. unfold derived_amount in *.
  destruct (is_empty (field raw "item")); [discriminate|].
  destruct (integer_of (field raw "quantity")) as [qty|]; [|discriminate].
  exists qty.
  destruct (integer_of (field raw "amount")) as [a|].
  - exists a. auto 10.
  - destruct (integer_of (field raw "price")) as [pr|]; [|discriminate].
    exists (pr * qty). auto 10.
Qed.

(** ** The claims on [normalize_row] *)

(** Every call returns a record and no reason, or no record and a reason. *)
Lemma normalize_row_outcome ys raw store :
  (exists row, normalize_row ys raw store = Ok (Some row, None))
  \/ (exists reason, normalize_row ys raw store = Ok (None, Some reason)).
Proof.
  destruct (first_failing raw) as [c|] eqn:Hc.
  - right. exists (reason_of c). now apply normalize_row_rejects.
  - left. destruct (normalize_row_accepts ys raw store Hc)
      as (dt & p & qty & amt & _ & _ & _ & _ & _ & Hr).
    eauto.
Qed.

(** C6 (totality): for every raw row and store label, [normalize_row]
    returns normally (it is [Ok], never [Raise]) a pair of which exactly one
    component is not [None]: a record and no reason, or no record and a
    reason. *)
Theorem normalize_row_total (ys : year_style) (raw : RawRow) (store : str) :
  exists out, normalize_row ys raw store = Ok out
    /\ ((exists row, out = (Some row, None))
        \/ (exists reason, out = (None, Some reason))).
Proof.
  destruct (normalize_row_outcome ys raw store) as [[row H]|[reason H]];
    rewrite H; eauto.
Qed.

(** C4 (rejection): [normalize_row] rejects a row exactly when its
    reconciled, trimmed date is empty or fails the three formats, or its
    item is empty, or its quantity is empty or no integer, or neither its
    amount nor its price is an integer; the reason returned is that of the
    first check that fails, in the order date, item, quantity, amount; a row
    that fails none is accepted. *)
Theorem normalize_row_rejection (ys : year_style) (raw : RawRow) (store : str) :
  ((exists reason, normalize_row ys raw store = Ok (None, Some reason))
   <-> date_invalid (field raw "date") = true
       \/ is_empty (field raw "item") = true
       \/ not_integer (field raw "quantity") = true
       \/ (not_integer (field raw "amount") = true
           /\ not_integer (field raw "price") = true))
  /\ match first_failing raw with
     | Some c => normalize_row ys raw store = Ok (None, Some (reason_of c))
     | None => exists row, normalize_row ys raw store = Ok (Some row, None)
     end.
Proof.
  assert (Hff : is_Some (first_failing raw)
                <-> date_invalid (field raw "date") = true
                    \/ is_empty (field raw "item") = true
                    \/ not_integer (field raw "quantity") = true
                    \/ (not_integer (field raw "amount") = true
                        /\ not_integer (field raw "price") = true)).
  { unfold first_failing.
    destruct (date_invalid _), (is_empty _), (not_integer (field raw "quantity")),
      (not_integer (field raw "amount")), (not_integer (field raw "price"));
      cbn [andb]; (split; [intros [c Hc]|intros H; try (eexists; reflexivity)]);
      try discriminate; intuition discriminate. }
  split.
  - rewrite <- Hff. split.
    + intros [reason Hr]. destruct (first_failing raw) as [c|] eqn:Hc; [eauto|].
      destruct (normalize_row_accepts ys raw store Hc)
        as (dt & p & qty & amt & _ & _ & _ & _ & _ & Ha).
      congruence.
    + intros [c Hc]. exists (reason_of c). now apply normalize_row_rejects.
  - destruct (first_failing raw) as [c|] eqn:Hc.
    + now apply normalize_row_rejects.
    + destruct (normalize_row_accepts ys raw store Hc)
        as (dt & p & qty & amt & _ & _ & _ & _ & _ & Ha).
      eauto.
Qed.

(** An accepted row failed no check. *)
Lemma normalize_row_accepted_inv ys raw store row :
  normalize_row ys raw store = Ok (Some row, None) ->
  exists dt p,
    In p patterns /\ strptime (field raw "date") p = Ok dt
    /\ is_empty (field raw "item") = false
    /\ integer_of (field raw "quantity") = Some (quantity row)
    /\ derived_amount raw (quantity row) = Some (amount row)
    /\ row = mkRow (format_items ys dt iso_items) store (field raw "item")
                   (quantity row) (amount row).
Proof.
  intros Hrow. destruct (first_failing raw) as [c|] eqn:Hc.
  - rewrite (normalize_row_rejects ys raw store c Hc) in Hrow. discriminate.
  - destruct (normalize_row_accepts ys raw store Hc)
      as (dt & p & qty & amt & Hin & Hs & Hi & Hq & Ha & Hr).
    rewrite Hr in Hrow. injection Hrow as <-. simpl.
    exists dt, p. auto 10.
Qed.

(** C3, as amended (record validity): every record [normalize_row] returns
    has a date that [strftime] printed from the calendar date one of the
    three formats read in the date field, in YYYY-MM-DD form whenever the
    year is zero-filled or is 1000 or later; the store
    label it was given; a non-empty item; as quantity the integer its
    quantity field denotes, of either sign; and as amount the integer
    derived from its amount or price field. *)
Theorem normalize_row_record_valid
    (ys : year_style) (raw : RawRow) (store : str) (row : NormalizedRow) :
  normalize_row ys raw store = Ok (Some row, None) ->
  (exists dt p, In p patterns
      /\ strptime (field raw "date") p = Ok dt
      /\ valid_date dt
      /\ date row = format_items ys dt iso_items
      /\ (ys = ZeroFilled \/ 1000 <= year dt ->
          is_iso_date (date row) = true))
  /\ Normalizer.store row = store
  /\ is_empty (item row) = false
  /\ integer_of (field raw "quantity") = Some (quantity row)
  /\ derived_amount raw (quantity row) = Some (amount row).
Proof.
  intros Hrow.
  destruct (normalize_row_accepted_inv ys raw store row Hrow)
    as (dt & p & Hin & Hs & Hi & Hq & Ha & Heq).
  pose proof (strptime_valid _ _ _ Hs) as Hv.
  assert (Hdate : date row = format_items ys dt iso_items)
    by (rewrite Heq; reflexivity).
  assert (Hstore : Normalizer.store row = store) by (rewrite Heq; reflexivity).
  assert (Hitem : item row = field raw "item") by (rewrite Heq; reflexivity).
  split.
  { exists dt, p. split; [exact Hin|]. split; [exact Hs|].
    split; [exact Hv|]. split; [exact Hdate|].
    intros Hys. rewrite Hdate. now apply format_iso. }
  split; [exact Hstore|]. split; [now rewrite Hitem|]. now split.
Qed.

(** C5 (amount derivation): the amount of an accepted record is the parsed
    value of its amount field when that field is an integer, and otherwise
    the parsed price times the quantity, the price then being an integer; a
    field no column maps to counts as not an integer; a row whose amount
    and price are both no integers is rejected. *)
Theorem normalize_row_amount (ys : year_style) (raw : RawRow) (store : str) :
  (forall row, normalize_row ys raw store = Ok (Some row, None) ->
     match integer_of (field raw "amount") with
     | Some a => amount row = a
     | None => exists p, integer_of (field raw "price") = Some p
                         /\ amount row = p * quantity row
     end)
  /\ (forall name, Forall (fun kv => ~ maps_to (fst kv) (u name)) raw ->
        integer_of (field raw name) = None)
  /\ (integer_of (field raw "amount") = None ->
      integer_of (field raw "price") = None ->
      exists reason, normalize_row ys raw store = Ok (None, Some reason)).
Proof.
  split; [|split].
  - intros row Hrow.
    destruct (normalize_row_accepted_inv ys raw store row Hrow)
      as (dt & p & _ & _ & _ & _ & Ha & _).
    unfold derived_amount in Ha.
    destruct (integer_of (field raw "amount")) as [a|]; [congruence|].
    destruct (integer_of (field raw "price")) as [pr|]; [|discriminate].
    exists pr. split; congruence.
  - intros name Hn. now rewrite (field_absent raw name Hn).
  - intros Ha Hp.
    destruct (normalize_row_outcome ys raw store) as [[row Hrow]|Hrej];
      [|exact Hrej].
    destruct (normalize_row_accepted_inv ys raw store row Hrow)
      as (dt & p & _ & _ & _ & _ & Hd & _).
    unfold derived_amount in Hd. rewrite Ha, Hp in Hd. discriminate.
Qed.

(** C7 (last one wins): when a raw column maps to a canonical field and no
    later column of the row does, the unified field-map holds that column's
    trimmed value for the field, whatever the earlier columns held. *)
Theorem unify_last_wins (raw1 raw2 : RawRow) (k v key : str) :
  maps_to k key ->
  Forall (fun kv => ~ maps_to (fst kv) key) raw2 ->
  unify (raw1 ++ (k, v) :: raw2) !! key = Some (strip v).
Proof.
  intros Hk Hlater. unfold unify. rewrite foldl_app. simpl.
  rewrite foldl_unify_step_other by exact Hlater.
  rewrite (unify_step_maps _ k v key Hk). apply lookup_insert_eq.
Qed.

(** C10 (commas): [_to_int] deletes every comma of the trimmed value before
    it reads the integer, so whatever [int] reads from the value without
    its commas is accepted: ["1,2"] is 12 and [",100"] is 100, and a row
    with such a quantity and amount is accepted with them. *)
Theorem to_int_deletes_commas :
  (forall v, _to_int v = Ok (integer_of (strip v)))
  /\ (forall v n,
        int (delete_commas (strip v)) = Ok n -> _to_int v = Ok (Some n))
  /\ _to_int (u "1,2") = Ok (Some 12)
  /\ _to_int (u ",100") = Ok (Some 100)
  /\ normalize_row Plain comma_row (u "store_a") = Ok (Some comma_record, None).
Proof.
  split; [exact to_int_spec|]. split; [|now vm_compute].
  intros v n Hn. rewrite to_int_spec. unfold integer_of.
  destruct (strip v) as [|c r]; [discriminate Hn|]. simpl is_empty.
  now rewrite Hn.
Qed.

(** ** Concrete rows *)

Lemma normalize_row_record_valid_witness :
  normalize_row Plain coffee_row (u "store_a") = Ok (Some coffee_record, None)
  /\ (exists dt p, In p patterns
        /\ strptime (field coffee_row "date") p = Ok dt
        /\ valid_date dt
        /\ date coffee_record = format_items Plain dt iso_items
        /\ (Plain = ZeroFilled \/ 1000 <= year dt ->
            is_iso_date (date coffee_record) = true))
  /\ Normalizer.store coffee_record = u "store_a"
  /\ is_empty (item coffee_record) = false
  /\ integer_of (field coffee_row "quantity") = Some (quantity coffee_record)
  /\ derived_amount coffee_row (quantity coffee_record)
     = Some (amount coffee_record).
Proof.
  split; [vm_compute; reflexivity|].
  apply (normalize_row_record_valid Plain coffee_row (u "store_a")).
  vm_compute; reflexivity.
Defined.

(** The claim as stated fails: a negative quantity is accepted, on either
    platform; and where [strftime] prints the plain year, a date before the
    year 1000 is not in YYYY-MM-DD form. *)
Lemma normalize_row_negative_quantity :
  normalize_row ZeroFilled return_row (u "store_a")
    = Ok (Some return_record, None)
  /\ normalize_row Plain return_row (u "store_a")
    = Ok (Some return_record, None)
  /\ quantity return_record = -2
  /\ ~ 0 <= quantity return_record
  /\ normalize_row Plain old_year_row (u "store_a")
    = Ok (Some old_year_record, None)
  /\ is_iso_date (date old_year_record) = false.
Proof.
  repeat split; try (vm_compute; reflexivity).
  simpl. lia.
Qed.

Lemma normalize_row_rejection_witness :
  normalize_row Plain no_amount_row (u "store_a")
    = Ok (None, Some (reason_of CheckAmount))
  /\ not_integer (field no_amount_row "amount") = true
  /\ not_integer (field no_amount_row "price") = true.
Proof.
  split; [|split; vm_compute; reflexivity].
  pose proof (proj2 (normalize_row_rejection Plain no_amount_row (u "store_a")))
    as H.
  vm_compute in H. vm_compute. exact H.
Defined.

Lemma normalize_row_amount_witness :
  normalize_row Plain return_row (u "store_a") = Ok (Some return_record, None)
  /\ exists p, integer_of (field return_row "price") = Some p
               /\ amount return_record = p * quantity return_record.
Proof.
  split; [vm_compute; reflexivity|].
  pose proof (proj1 (normalize_row_amount Plain return_row (u "store_a"))
                return_record) as H.
  vm_compute in H. vm_compute. apply H. reflexivity.
Defined.

Lemma unify_last_wins_witness :
  maps_to (u "date") (u "date")
  /\ maps_to (u "day") (u "date")
  /\ unify two_dates_row !! u "date" = Some (u "2026-02-02").
Proof.
  split; [vm_compute; reflexivity|]. split; [vm_compute; reflexivity|].
  pose proof (unify_last_wins
                [(u "date", u "2026-01-01"); (u "item_name", u "Tea")]
                [(u "quantity", u "1"); (u "amount", u "7")]
                (u "day") (u " 2026-02-02 ") (u "date")) as H.
  vm_compute in H. vm_compute. apply H; [reflexivity|].
  repeat constructor; intros [=].
Defined.

Lemma to_int_commas_witness :
  int (delete_commas (strip (u " 1,5,00 "))) = Ok 1500
  /\ _to_int (u " 1,5,00 ") = Ok (Some 1500).
Proof.
  split; [vm_compute; reflexivity|].
  apply (proj1 (proj2 to_int_deletes_commas)). vm_compute; reflexivity.
Defined.

End NormalizerProofs.

(* ===================================================================== *)
(** * Store labels from file names                                         *)
(* ===================================================================== *)

Module CsvLoaderProofs.
Import Py CsvLoader Spec PyFacts.

(** ** [split], [join] and [rfind] *)

Lemma split_nonempty sep s : split sep s <> [].
Proof.
  destruct s as [|c r]; simpl; [discriminate|].
  destruct (c =? sep)%N; [discriminate|]. now destruct (split sep r).
Qed.

Lemma split_absent sep s : Forall (fun c => c <> sep) s -> split sep s = [s].
Proof.
  induction 1 as [|c r Hc _ IH]; simpl; [reflexivity|].
  apply N.eqb_neq in Hc. now rewrite Hc, IH.
Qed.

Lemma split_app sep a b :
  split sep (a ++ sep :: b) = split sep a ++ split sep b.
Proof.
  induction a as [|c a IH]; simpl.
  - now rewrite N.eqb_refl.
  - rewrite IH. destruct (c =? sep)%N; [reflexivity|].
    pose proof (split_nonempty sep a). now destruct (split sep a).
Qed.

(** Joining what was split gives the string back. *)
Lemma join_split sep s : join [sep] (split sep s) = s.
Proof.
  induction s as [|c r IH]; simpl; [reflexivity|].
  pose proof (split_nonempty sep r) as Hne.
  destruct (c =? sep)%N eqn:Hc.
  - apply N.eqb_eq in Hc as ->.
    destruct (split sep r) as [|h t]; [done|]. simpl in *. now rewrite IH.
  - destruct (split sep r) as [|h [|h' t]]; [done| |]; simpl in *;
      now rewrite <- IH.
Qed.

Lemma rfind_absent c s : Forall (fun x => x <> c) s -> rfind c s = None.
Proof.
  induction 1 as [|x r Hx _ IH]; simpl; [reflexivity|].
  apply N.eqb_neq in Hx. now rewrite IH, Hx.
Qed.

Lemma rfind_last c a b :
  Forall (fun x => x <> c) b -> rfind c (a ++ c :: b) = Some (length a).
Proof.
  intros Hb. induction a as [|x a IH]; simpl.
  - now rewrite (rfind_absent c b Hb), N.eqb_refl.
  - now rewrite IH.
Qed.

(** ** The stem and the label of a discovered file *)

Lemma stem_csv a :
  a <> [] -> stem (mkPath (a ++ u ".csv")) = a.
Proof.
  intros Ha. unfold stem. cbn [name].
  change (u ".csv") with (chr "." :: u "csv").
  rewrite rfind_last by (repeat constructor; discriminate).
  assert (Hlen : (0 < length a)%nat) by (destruct a; [done|simpl; lia]).
  assert (Hc : ((0 <? length a)
                && (length a <? length (a ++ chr "." :: u "csv") - 1))%nat
               = true).
  { rewrite length_app. change (length (chr "." :: u "csv")) with 4%nat.
    apply andb_true_iff; split; apply Nat.ltb_lt; lia. }
  rewrite Hc. apply take_app_length.
Qed.

Lemma is_month_inv month :
  is_month month = true ->
  exists yyyy mm,
    month = yyyy ++ chr "-" :: mm
    /\ Forall (fun c => is_ascii_digit c = true) yyyy
    /\ Forall (fun c => is_ascii_digit c = true) mm.
Proof.
  destruct month as [|y1 [|y2 [|y3 [|y4 [|h [|m1 [|m2 [|x r]]]]]]]];
    try discriminate.
  unfold is_month. rewrite !andb_true_iff, N.eqb_eq.
  intros [[[[[[H1 H2] H3] H4] ->] H5] H6].
  exists [y1; y2; y3; y4], [m1; m2]. repeat constructor; assumption.
Qed.

Lemma digit_not c x :
  (x < 48 \/ 57 < x)%N -> is_ascii_digit c = true -> c <> x.
Proof.
  unfold is_ascii_digit. rewrite andb_true_iff, !N.leb_le. lia.
Qed.

Lemma digits_without s x :
  (x < 48 \/ 57 < x)%N ->
  Forall (fun c => is_ascii_digit c = true) s -> Forall (fun c => c <> x) s.
Proof.
  intros Hx Hs. eapply Forall_impl; [exact Hs|].
  intros c. now apply digit_not.
Qed.

Lemma month_suffix_parts yyyy mm :
  Forall (fun c => is_ascii_digit c = true) yyyy ->
  Forall (fun c => is_ascii_digit c = true) mm ->
  month_suffix (yyyy ++ chr "-" :: mm) = yyyy ++ chr "_" :: mm.
Proof.
  intros Hy Hm. unfold month_suffix.
  rewrite replace_app. cbn [replace]. rewrite N.eqb_refl.
  rewrite !replace_absent;
    [reflexivity | | ]; apply digits_without; auto; now left.
Qed.

Lemma infer_store_name_month prefix yyyy mm :
  Forall (fun c => is_ascii_digit c = true) yyyy ->
  Forall (fun c => is_ascii_digit c = true) mm ->
  let p := mkPath (prefix ++ u "_" ++ (yyyy ++ chr "_" :: mm) ++ u ".csv") in
  stem p = prefix ++ u "_" ++ (yyyy ++ chr "_" :: mm)
  /\ infer_store_name p = prefix.
Proof.
  intros Hy Hm p.
  assert (Hstem : stem p = prefix ++ u "_" ++ (yyyy ++ chr "_" :: mm)).
  { unfold p. rewrite !app_assoc. apply stem_csv.
    change (u "_") with [chr "_"]. now destruct prefix. }
  split; [exact Hstem|].
  unfold infer_store_name. rewrite Hstem.
  change (u "_") with [chr "_"].
  replace (prefix ++ [chr "_"] ++ yyyy ++ chr "_" :: mm)
    with ((prefix ++ chr "_" :: yyyy) ++ chr "_" :: mm)
    by (now rewrite <- app_assoc).
  rewrite !split_app.
  rewrite (split_absent _ yyyy), (split_absent _ mm)
    by (apply digits_without; auto; now right).
  rewrite <- app_assoc. cbn [app].
  rewrite length_app. cbn [length].
  replace (3 <=? length (split (chr "_") prefix) + 2)%nat with true.
  - replace (length (split (chr "_") prefix) + 2 - 2)%nat
      with (length (split (chr "_") prefix)) by lia.
    rewrite take_app_length. apply join_split.
  - symmetry. apply Nat.leb_le.
    pose proof (split_nonempty (chr "_") prefix).
    destruct (split (chr "_") prefix); [done|]. cbn [length]. lia.
Qed.

(** C9 (store label): for every month given as YYYY-MM and every file the
    discovery pattern selects for it, the stem is some prefix followed by
    [_YYYY_MM] and the store label is that prefix; and a stem of fewer than
    three underscore-delimited segments is its own store label. *)
Theorem infer_store_name_spec :
  (forall (month : str) (p : Path),
      is_month month = true -> glob_matches month p ->
      exists prefix,
        stem p = prefix ++ u "_" ++ month_suffix month
        /\ infer_store_name p = prefix)
  /\ (forall p : Path,
        (length (split (chr "_") (stem p)) < 3)%nat ->
        infer_store_name p = stem p).
Proof.
  split.
  - intros month [nm] Hmonth [prefix Hname]. cbn [name] in Hname. subst nm.
    destruct (is_month_inv month Hmonth) as (yyyy & mm & -> & Hy & Hm).
    exists prefix. rewrite (month_suffix_parts yyyy mm Hy Hm).
    exact (infer_store_name_month prefix yyyy mm Hy Hm).
  - intros p Hlen. unfold infer_store_name.
    now apply Nat.leb_gt in Hlen as ->.
Qed.

Lemma infer_store_name_spec_witness :
  is_month (u "2026-01") = true
  /\ glob_matches (u "2026-01") (mkPath (u "store_a_2026_01.csv"))
  /\ exists prefix,
       stem (mkPath (u "store_a_2026_01.csv"))
         = prefix ++ u "_" ++ month_suffix (u "2026-01")
       /\ infer_store_name (mkPath (u "store_a_2026_01.csv")) = prefix.
Proof.
  assert (Hg : glob_matches (u "2026-01") (mkPath (u "store_a_2026_01.csv")))
    by (exists (u "store_a"); vm_compute; reflexivity).
  split; [vm_compute; reflexivity|]. split; [exact Hg|].
  apply (proj1 infer_store_name_spec); [vm_compute; reflexivity|exact Hg].
Defined.

End CsvLoaderProofs.

(* ===================================================================== *)
(** * Tax and total of an invoice                                          *)
(* ===================================================================== *)

Module InvoiceProofs.
Import Py InvoiceGenerator Spec.

(** Every invoice built carries the tax [_calc_tax] gave for its subtotal,
    and their sum as total. *)
Lemma build_invoices_total issue summary_rows month rate invoices :
  build_invoices issue summary_rows month rate = Ok invoices ->
  Forall (fun inv => _calc_tax (subtotal inv) rate = Ok (tax inv)
                     /\ total inv = subtotal inv + tax inv) invoices.
Proof.
  revert invoices.
  induction summary_rows as [|[store sub] rest IH]; intros invoices; simpl.
  - intros [= <-]. constructor.
  - destruct (_calc_tax sub rate) as [t|e] eqn:Ht; simpl; [|discriminate].
    destruct (build_invoices issue rest month rate) as [invs|e]; simpl;
      [|discriminate].
    intros [= <-]. constructor; [simpl; auto|]. now apply IH.
Qed.

(** C8 (tax), at subtotals whose tenth is a tie: [round] takes the tie to
    the even integer, so the tax of 5 is 0 and the tax of 25 is 2, where
    rounding ties away from zero gives 1 and 3; the total is the subtotal
    plus that tax. *)
Theorem calc_tax_ties_to_even :
  _calc_tax 5 tax_rate_default = Ok 0
  /\ tax_half_away 5 = 1
  /\ _calc_tax 25 tax_rate_default = Ok 2
  /\ tax_half_away 25 = 3
  /\ build_invoices (u "2026-02-01") [(u "store_a", 5)] (u "2026-01")
       tax_rate_default
     = Ok [mkInvoice (u "INV-202601-store_a") (u "2026-02-01") (u "store_a")
             5 tax_rate_default 0 5].
Proof. repeat split; vm_compute; reflexivity. Qed.

End InvoiceProofs.

(* ===================================================================== *)
(** * Aggregation, key by key                                              *)
(* ===================================================================== *)

Module AggregatorTotals.
Import Py Normalizer Aggregator Spec.

Lemma total_for_app key k rows1 rows2 :
  total_for key k (rows1 ++ rows2)
  = total_for key k rows1 + total_for key k rows2.
Proof.
  unfold total_for. induction rows1 as [|r rows1 IH]; simpl; [lia|].
  case_decide; lia.
Qed.

Lemma total_for_absent key k rows :
  k ∉ key <$> rows -> total_for key k rows = 0.
Proof.
  induction rows as [|r rows IH]; simpl; [reflexivity|].
  rewrite not_elem_of_cons. intros [Hne Hk].
  case_decide; [congruence|]. now apply IH.
Qed.

Lemma add_to_totals d key r k :
  Aggregator.add_to d (key r) (amount r) !! k
  = if decide (key r = k) then Some (get d k 0 + amount r) else d !! k.
Proof.
  unfold Aggregator.add_to. rewrite lookup_insert.
  case_decide; now subst.
Qed.

Lemma by_store_foldl acc rows :
  by_store (foldl step acc rows)
  = foldl (fun d r => Aggregator.add_to d (store r) (amount r))
          (by_store acc) rows.
Proof. revert acc. induction rows as [|r rows IH]; intros acc; simpl; auto. Qed.

Lemma by_item_foldl acc rows :
  by_item (foldl step acc rows)
  = foldl (fun d r => Aggregator.add_to d (item r) (amount r))
          (by_item acc) rows.
Proof. revert acc. induction rows as [|r rows IH]; intros acc; simpl; auto. Qed.

(** The loop on one mapping, from any start: the entry of [k] is what was
    there plus the amounts of the rows with that key; it exists when it did
    or when some row has the key. *)
Lemma foldl_add_to_lookup key d rows k :
  foldl (fun d r => Aggregator.add_to d (key r) (amount r)) d rows !! k
  = if decide (k ∈ key <$> rows)
    then Some (get d k 0 + total_for key k rows)
    else d !! k.
Proof.
  revert d. induction rows as [|r rows IH]; intros d.
  - cbn [foldl fmap list_fmap]. case_decide as Hin; [|reflexivity].
    now apply elem_of_nil in Hin.
  - simpl foldl. rewrite IH. unfold get at 1. rewrite add_to_totals.
    rewrite fmap_cons. simpl total_for. fold (total_for key k rows).
    unfold get.
    repeat case_decide; simpl; try reflexivity; rewrite ?elem_of_cons in *;
      try (exfalso; intuition congruence);
      f_equal; rewrite ?total_for_absent by assumption; lia.
Qed.

Lemma aggregate_lookup rows k :
  by_store (aggregate rows) !! k = expected_total store k rows
  /\ by_item (aggregate rows) !! k = expected_total item k rows.
Proof.
  unfold aggregate, expected_total.
  rewrite by_store_foldl, by_item_foldl, !foldl_add_to_lookup. simpl.
  unfold get. rewrite !lookup_empty. simpl.
  split; case_decide; f_equal; lia.
Qed.

(** X1 (totals key by key): in the result of [aggregate], a store (an item)
    has an entry exactly when some record carries it, and the entry is the
    sum of [amount] over the records that carry it, zero sums included. *)
Theorem aggregate_per_key (rows : list NormalizedRow) (k : str) :
  by_store (aggregate rows) !! k = expected_total store k rows
  /\ by_item (aggregate rows) !! k = expected_total item k rows.
Proof. apply aggregate_lookup. Qed.

(** X2 (merging shards): aggregating a concatenation gives, for both
    mappings, the totals of the two parts merged by adding the entries of
    the keys they share and keeping the others. *)
Theorem aggregate_app (rows1 rows2 : list NormalizedRow) :
  by_store (aggregate (rows1 ++ rows2))
    = merge_totals (by_store (aggregate rows1)) (by_store (aggregate rows2))
  /\ by_item (aggregate (rows1 ++ rows2))
    = merge_totals (by_item (aggregate rows1)) (by_item (aggregate rows2)).
Proof.
  split; apply map_eq; intros k; unfold merge_totals;
    rewrite lookup_union_with;
    destruct (aggregate_lookup (rows1 ++ rows2) k) as [Hs Hi];
    destruct (aggregate_lookup rows1 k) as [Hs1 Hi1];
    destruct (aggregate_lookup rows2 k) as [Hs2 Hi2];
    rewrite ?Hs, ?Hi, ?Hs1, ?Hi1, ?Hs2, ?Hi2;
    unfold expected_total; rewrite fmap_app, total_for_app;
    repeat case_decide; simpl; try reflexivity;
    try (f_equal;
         rewrite ?(total_for_absent _ _ rows1), ?(total_for_absent _ _ rows2)
           by assumption;
         lia);
    exfalso; rewrite ?elem_of_app in *; tauto.
Qed.

End AggregatorTotals.

(* ===================================================================== *)
(** * Row normalisation: what the columns of a row can change             *)
(* ===================================================================== *)

Module NormalizerColumns.
Import Py Normalizer Spec Examples PyFacts NormalizerProofs.

(** [normalize_row] reads a raw row through [unify] only. *)
Lemma normalize_row_unify ys raw raw' store :
  unify raw = unify raw' ->
  normalize_row ys raw store = normalize_row ys raw' store.
Proof. unfold normalize_row. now intros ->. Qed.

Lemma unify_step_unknown unified kv :
  known_column kv = false -> unify_step unified kv = unified.
Proof.
  unfold known_column, unify_step.
  now destruct (COLUMN_MAP !! strip (fst kv)).
Qed.

Lemma foldl_unify_step_known raw unified :
  foldl unify_step unified (List.filter known_column raw)
  = foldl unify_step unified raw.
Proof.
  revert unified. induction raw as [|kv raw IH]; intros unified; simpl;
    [reflexivity|].
  destruct (known_column kv) eqn:Hk; simpl.
  - apply IH.
  - rewrite IH. now rewrite unify_step_unknown.
Qed.



(** X3 (unknown columns): columns whose trimmed name is no known synonym
    never influence the result: a row is normalised as the row without
    them is. *)
Theorem normalize_row_ignores_unknown
    (ys : year_style) (raw : RawRow) (store : str) :
  normalize_row ys (List.filter known_column raw) store
  = normalize_row ys raw store.
Proof. apply normalize_row_unify, foldl_unify_step_known. Qed.


(** ** The columns an accepted row must have *)

Lemma maps_to_item k :
  maps_to k (u "item")
  <-> strip k ∈ [u "product"; u "item_name"; u "商品名"].
Proof.
  unfold maps_to. split.
  - intros H. apply elem_of_list_to_map_2 in H.
    repeat (apply elem_of_cons in H as [Heq|H];
            [pose proof (f_equal fst Heq) as Hk;
             pose proof (f_equal snd Heq) as Hv; cbn [fst snd] in Hk, Hv;
             first [now vm_compute in Hv | rewrite Hk; set_solver]|]).
    now apply elem_of_nil in H.
  - intros H.
    repeat (apply elem_of_cons in H as [->|H]; [now vm_compute|]).
    now apply elem_of_nil in H.
Qed.

Lemma has_column_dec raw name : Decision (has_column raw name).
Proof. unfold has_column, maps_to. apply _. Defined.

Lemma field_without_column raw name :
  ~ has_column raw name -> field raw name = [].
Proof.
  intros H. apply field_absent. apply Forall_forall. intros kv Hin Hm.
  apply H. apply Exists_exists. eauto.
Qed.

(** X5 (required columns): a row is accepted only if it has a column for
    the date, one for the item, one for the quantity, and one for the
    amount or for the price; the item column must be named [product],
    [item_name] or [商品名] (the canonical name [item] is not a synonym). *)
Theorem normalize_row_required_columns
    (ys : year_style) (raw : RawRow) (store : str) (row : NormalizedRow) :
  normalize_row ys raw store = Ok (Some row, None) ->
  has_column raw "date" /\ has_column raw "item"
  /\ has_column raw "quantity"
  /\ (has_column raw "amount" \/ has_column raw "price")
  /\ Exists (fun kv => strip (fst kv)
                       ∈ [u "product"; u "item_name"; u "商品名"]) raw.
Proof.
  intros Hrow.
  destruct (normalize_row_accepted_inv ys raw store row Hrow)
    as (dt & p & Hin & Hs & Hi & Hq & Ha & _).
  assert (Hdate : has_column raw "date").
  { destruct (has_column_dec raw "date") as [|Hno]; [assumption|].
    rewrite (field_without_column raw "date" Hno) in Hs.
    repeat (destruct Hin as [<-|Hin]; [now vm_compute in Hs|]).
    destruct Hin. }
  assert (Hitem : has_column raw "item").
  { destruct (has_column_dec raw "item") as [|Hno]; [assumption|].
    now rewrite (field_without_column raw "item" Hno) in Hi. }
  assert (Hqty : has_column raw "quantity").
  { destruct (has_column_dec raw "quantity") as [|Hno]; [assumption|].
    now rewrite (field_without_column raw "quantity" Hno) in Hq. }
  repeat split; try assumption.
  - destruct (has_column_dec raw "amount") as [|Hna]; [now left|].
    destruct (has_column_dec raw "price") as [|Hnp]; [now right|].
    unfold derived_amount in Ha.
    rewrite (field_without_column raw "amount" Hna),
      (field_without_column raw "price" Hnp) in Ha.
    discriminate Ha.
  - unfold has_column in Hitem. eapply Exists_impl; [exact Hitem|].
    intros kv. apply maps_to_item.
Qed.

Lemma normalize_row_required_columns_witness :
  normalize_row Plain coffee_row (u "store_a") = Ok (Some coffee_record, None)
  /\ has_column coffee_row "date" /\ has_column coffee_row "item"
  /\ has_column coffee_row "quantity"
  /\ (has_column coffee_row "amount" \/ has_column coffee_row "price")
  /\ Exists (fun kv => strip (fst kv)
                       ∈ [u "product"; u "item_name"; u "商品名"])
            coffee_row.
Proof.
  split; [vm_compute; reflexivity|].
  apply (normalize_row_required_columns Plain coffee_row (u "store_a")
           coffee_record).
  vm_compute; reflexivity.
Defined.

End NormalizerColumns.

(* ===================================================================== *)
(** * Integers as text: what is written is read back                      *)
(* ===================================================================== *)

Module TextFacts.
Import Py PyText Normalizer Spec PyFacts NormalizerProofs.

(** ** [int] on a string of ASCII digits *)

Lemma digit_bounds c : is_ascii_digit c = true -> (48 <= c <= 57)%N.
Proof. unfold is_ascii_digit. rewrite andb_true_iff, !N.leb_le. tauto. Qed.

Lemma to_ascii_ascii s :
  Forall (fun c => (c < 127)%N) s -> to_ascii <$> s = s.
Proof.
  induction 1 as [|c r Hc _ IH]; [reflexivity|].
  rewrite fmap_cons, IH. unfold to_ascii.
  apply N.ltb_lt in Hc. now rewrite Hc.
Qed.

Lemma isspace_false c : (32 < c < 127)%N -> isspace c = false.
Proof.
  intros Hc. unfold isspace.
  repeat (apply orb_false_iff; split);
    rewrite ?andb_false_iff, ?N.leb_gt, ?N.eqb_neq; lia.
Qed.

Lemma ascii_isspace_false c : (32 < c)%N -> ascii_isspace c = false.
Proof.
  intros Hc. unfold ascii_isspace.
  apply orb_false_iff; rewrite andb_false_iff, !N.leb_gt, N.eqb_neq. lia.
Qed.

(** The scan over a run of digits reads all of it. *)
Lemma scan_digits_all cs prev acc k :
  Forall (fun c => is_ascii_digit c = true) cs ->
  exists prev',
    scan_digits cs prev acc k
    = Some (foldl (fun a c => 10 * a + Z.of_N (c - 48)) acc cs,
            (k + length cs)%nat, prev', [])
    /\ (prev' = prev \/ is_ascii_digit prev' = true).
Proof.
  intros H. revert prev acc k.
  induction H as [|c cs Hc _ IH]; intros prev acc k.
  - exists prev. simpl. rewrite Nat.add_0_r. auto.
  - cbn [scan_digits]. unfold ascii_digit. fold (is_ascii_digit c).
    rewrite Hc. pose proof (digit_bounds c Hc).
    replace (c =? 95)%N with false by (symmetry; apply N.eqb_neq; lia).
    destruct (IH c (10 * acc + Z.of_N (c - 48)) (S k)) as (prev' & -> & Hp).
    exists prev'. cbn [foldl length].
    replace (S k + length cs)%nat with (k + S (length cs))%nat by lia.
    split; [reflexivity|]. right. now destruct Hp as [->|Hp].
Qed.

(** [int] reads an optional minus sign and at most 4300 digits as the
    number they denote. *)
Lemma int_digits (negative : bool) cs :
  cs <> [] -> Forall (fun c => is_ascii_digit c = true) cs ->
  (length cs <= int_max_str_digits)%nat ->
  int ((if negative then [45%N] else []) ++ cs)
  = Ok (let n := foldl (fun a c => 10 * a + Z.of_N (c - 48)) 0 cs in
        if negative then - n else n).
Proof.
  intros Hne Hd Hlen.
  assert (Hascii : Forall (fun c => (c < 127)%N) cs).
  { eapply Forall_impl; [exact Hd|]. intros c Hc.
    apply digit_bounds in Hc. lia. }
  destruct (scan_digits_all cs 0%N 0 0%nat Hd) as (prev' & Hscan & Hp).
  assert (Hprev : (prev' =? 95)%N = false).
  { apply N.eqb_neq. destruct Hp as [->|Hp]; [lia|].
    apply digit_bounds in Hp. lia. }
  destruct cs as [|c cs]; [done|].
  pose proof (Forall_inv Hd) as Hc. apply digit_bounds in Hc.
  unfold int.
  rewrite to_ascii_ascii
    by (destruct negative; [constructor; [lia|]|]; exact Hascii).
  destruct negative; cbn [app skip_ascii_space].
  - change (ascii_isspace 45) with false. cbv iota.
    change (45 =? 43)%N with false. change (45 =? 45)%N with true. cbv iota.
    replace (c =? 95)%N with false by (symmetry; apply N.eqb_neq; lia).
    rewrite Hscan, Hprev.
    replace (int_max_str_digits <? 0 + length (c :: cs))%nat with false
      by (symmetry; apply Nat.ltb_ge; simpl in *; lia).
    reflexivity.
  - rewrite ascii_isspace_false by lia.
    replace (c =? 43)%N with false by (symmetry; apply N.eqb_neq; lia).
    replace (c =? 45)%N with false by (symmetry; apply N.eqb_neq; lia).
    replace (c =? 95)%N with false by (symmetry; apply N.eqb_neq; lia).
    rewrite Hscan, Hprev.
    replace (int_max_str_digits <? 0 + length (c :: cs))%nat with false
      by (symmetry; apply Nat.ltb_ge; simpl in *; lia).
    reflexivity.
Qed.

(** ** The digits of [str(n)] *)

Lemma uint_chars_digits d :
  Forall (fun c => is_ascii_digit c = true) (uint_chars d).
Proof. induction d; simpl; constructor; auto. Qed.

Lemma uint_chars_length d : length (uint_chars d) = Decimal.nb_digits d.
Proof. induction d; simpl; auto. Qed.

Lemma foldl_uint_pos d a :
  foldl (fun a c => 10 * a + Z.of_N (c - 48)) (Zpos a) (uint_chars d)
  = Zpos (Pos.of_uint_acc d a).
Proof.
  revert a. induction d; intros a; cbn [uint_chars foldl Pos.of_uint_acc];
    [reflexivity|..];
    match goal with
    | |- foldl _ ?x _ = Zpos (Pos.of_uint_acc _ ?y) =>
        replace x with (Zpos y) by lia
    end; apply IHd.
Qed.

Lemma foldl_uint_zero d :
  foldl (fun a c => 10 * a + Z.of_N (c - 48)) 0 (uint_chars d)
  = Z.of_N (Pos.of_uint d).
Proof.
  induction d; cbn [uint_chars foldl Pos.of_uint]; [reflexivity|exact IHd|..];
    match goal with
    | |- foldl _ ?x _ = _ => let y := eval vm_compute in x in change x with y
    end; apply foldl_uint_pos.
Qed.

Lemma decimal_digits_digits n :
  Forall (fun c => is_ascii_digit c = true) (decimal_digits n).
Proof.
  destruct n; simpl; [repeat constructor|apply uint_chars_digits..].
Qed.

Lemma decimal_digits_nonempty n : decimal_digits n <> [].
Proof.
  destruct n as [|p|p]; simpl; [discriminate|..];
    pose proof (DecimalPos.Unsigned.to_uint_nonnil p);
    now destruct (Pos.to_uint p).
Qed.

Lemma decimal_digits_value n :
  foldl (fun a c => 10 * a + Z.of_N (c - 48)) 0 (decimal_digits n) = Z.abs n.
Proof.
  destruct n as [|p|p]; simpl decimal_digits; [reflexivity|..];
    now rewrite foldl_uint_zero, DecimalPos.Unsigned.of_to.
Qed.

Lemma sign_chars_cases n :
  sign_chars n = (if n <? 0 then [45%N] else []).
Proof. reflexivity. Qed.

Lemma to_str_inv n s :
  to_str n = Ok s ->
  s = sign_chars n ++ decimal_digits n
  /\ (length (decimal_digits n) <= int_max_str_digits)%nat.
Proof.
  unfold to_str.
  destruct (int_max_str_digits <? length (decimal_digits n))%nat eqn:Hl;
    [discriminate|].
  apply Nat.ltb_ge in Hl. now intros [= <-].
Qed.

Lemma int_to_str n s : to_str n = Ok s -> int s = Ok n.
Proof.
  intros H. apply to_str_inv in H as [-> Hlen].
  rewrite sign_chars_cases,
    (int_digits (n <? 0) _ (decimal_digits_nonempty n)
       (decimal_digits_digits n) Hlen).
  cbv zeta. rewrite decimal_digits_value.
  f_equal. destruct (n <? 0) eqn:Hn; [apply Z.ltb_lt in Hn|apply Z.ltb_ge in Hn];
    lia.
Qed.

(** ** Trimming and comma deletion on text without blanks or commas *)

Lemma lstrip_fixed s :
  Forall (fun c => isspace c = false) s -> lstrip s = s.
Proof. destruct 1 as [|c r Hc _]; simpl; [reflexivity|]. now rewrite Hc. Qed.

Lemma rstrip_fixed s :
  Forall (fun c => isspace c = false) s -> rstrip s = s.
Proof.
  induction 1 as [|c r Hc _ IH]; simpl; [reflexivity|].
  rewrite IH, Hc. now destruct r.
Qed.

Lemma strip_fixed s :
  Forall (fun c => isspace c = false) s -> strip s = s.
Proof. intros H. unfold strip. now rewrite lstrip_fixed, rstrip_fixed. Qed.

Lemma delete_commas_fixed s :
  Forall (fun c => c <> 44%N) s -> delete_commas s = s.
Proof.
  unfold delete_commas. change (chr ",") with 44%N.
  induction 1 as [|c r Hc _ IH]; simpl; [reflexivity|].
  apply N.eqb_neq in Hc. now rewrite Hc, IH.
Qed.

Lemma digit_not_space c : is_ascii_digit c = true -> isspace c = false.
Proof. intros H. apply digit_bounds in H. apply isspace_false. lia. Qed.

Lemma digit_not_comma c : is_ascii_digit c = true -> c <> 44%N.
Proof. intros H. apply digit_bounds in H. lia. Qed.

Lemma signed_digits_forall (P : N -> Prop) n :
  P 45%N -> (forall c, is_ascii_digit c = true -> P c) ->
  Forall P (sign_chars n ++ decimal_digits n).
Proof.
  intros Hm Hd. apply Forall_app. split.
  - unfold sign_chars. destruct (n <? 0); repeat constructor; exact Hm.
  - eapply Forall_impl; [apply decimal_digits_digits|exact Hd].
Qed.

Lemma integer_of_plain s n :
  s <> [] -> Forall (fun c => c <> 44%N) s -> int s = Ok n ->
  integer_of s = Some n.
Proof.
  intros Hne Hc Hi. unfold integer_of.
  destruct s; [done|]. simpl is_empty.
  now rewrite delete_commas_fixed, Hi.
Qed.

(** X6 (integers written, integers read): the text [str(n)] that the
    driver writes for a quantity, an amount or a total is read back as [n]
    by [int] and by [_to_int]. *)
Theorem to_str_read_back (n : Z) (s : str) :
  to_str n = Ok s -> int s = Ok n /\ _to_int s = Ok (Some n).
Proof.
  intros H. pose proof (int_to_str n s H) as Hi.
  split; [exact Hi|].
  apply to_str_inv in H as [-> _].
  rewrite to_int_spec, strip_fixed.
  - f_equal. apply integer_of_plain; [|apply signed_digits_forall|exact Hi].
    + pose proof (decimal_digits_nonempty n).
      now destruct (sign_chars n), (decimal_digits n).
    + discriminate.
    + apply digit_not_comma.
  - apply signed_digits_forall; [reflexivity|apply digit_not_space].
Qed.

Lemma to_str_read_back_witness :
  to_str (-1500) = Ok (u "-1500")
  /\ int (u "-1500") = Ok (-1500) /\ _to_int (u "-1500") = Ok (Some (-1500)).
Proof.
  split; [vm_compute; reflexivity|].
  apply to_str_read_back. vm_compute; reflexivity.
Defined.

(** ** [str(n)] succeeds on every integer below [2^4300] *)

Lemma nb_digits_double d :
  (Decimal.nb_digits (Decimal.Little.double d) <= S (Decimal.nb_digits d)
   /\ Decimal.nb_digits (Decimal.Little.succ_double d)
      <= S (Decimal.nb_digits d))%nat.
Proof. induction d; simpl; lia. Qed.

Lemma nb_digits_to_little_uint p :
  (Decimal.nb_digits (Pos.to_little_uint p) <= Pos.size_nat p)%nat.
Proof.
  induction p as [p IH|p IH|]; simpl; [| |lia].
  - pose proof (nb_digits_double (Pos.to_little_uint p)). lia.
  - pose proof (nb_digits_double (Pos.to_little_uint p)). lia.
Qed.

Lemma size_nat_size p : Z.of_nat (Pos.size_nat p) = Zpos (Pos.size p).
Proof. induction p; simpl; lia. Qed.

Lemma size_nat_log2 p : Z.of_nat (Pos.size_nat p) = Z.log2 (Zpos p) + 1.
Proof.
  destruct p; simpl Z.log2; simpl Pos.size_nat;
    rewrite ?Nat2Z.inj_succ, ?size_nat_size; lia.
Qed.

Lemma decimal_digits_length n :
  Z.of_nat (length (decimal_digits n)) <= Z.log2 (Z.abs n) + 1.
Proof.
  destruct n as [|p|p]; [simpl; lia|..];
    change (Z.abs _) with (Zpos p);
    change (decimal_digits _) with (uint_chars (Pos.to_uint p));
    rewrite uint_chars_length; unfold Pos.to_uint;
    rewrite DecimalFacts.nb_digits_rev, <- size_nat_log2;
    apply Nat2Z.inj_le, nb_digits_to_little_uint.
Qed.

Lemma digits_within_limit n :
  Z.abs n < 2 ^ 4300 ->
  (int_max_str_digits <? length (decimal_digits n))%nat = false.
Proof.
  intros Hn. apply Nat.ltb_ge. pose proof (decimal_digits_length n).
  assert (Z.log2 (Z.abs n) < 4300).
  { destruct (Z.eq_dec n 0) as [->|Hne]; [reflexivity|].
    apply Z.log2_lt_pow2; lia. }
  unfold int_max_str_digits. lia.
Qed.

Lemma to_str_total n :
  Z.abs n < 2 ^ 4300 -> to_str n = Ok (sign_chars n ++ decimal_digits n).
Proof. intros Hn. unfold to_str. now rewrite digits_within_limit. Qed.

(** ** Thousands separators *)






End TextFacts.

(* ===================================================================== *)
(** * Amounts as printed on an invoice                                     *)
(* ===================================================================== *)

Module YenProofs.
Import Py PyText Normalizer InvoiceGenerator Spec PyFacts NormalizerProofs.
Import TextFacts.



End YenProofs.

(* ===================================================================== *)
(** * Dates: what is printed is parsed back                                *)
(* ===================================================================== *)

Module DateRoundTrip.
Import Py PyText Normalizer Spec PyFacts NormalizerProofs TextFacts.

Lemma isdecimal_digit c : is_ascii_digit c = true -> isdecimal c = true.
Proof.
  intros H. apply digit_bounds in H.
  unfold isdecimal, todecimal, decimal_zeros. cbn [List.find].
  replace ((48 <=? c) && (c <? 48 + 10))%N with true; [reflexivity|].
  symmetry. apply andb_true_iff. rewrite N.leb_le, N.ltb_lt. lia.
Qed.

(** The year group: four digits are taken, whatever follows. *)
Lemma re_match_year items y3 y2 y1 y0 rest :
  Forall (fun c => is_ascii_digit c = true) [y3; y2; y1; y0] ->
  re_match (Dir DY :: items) (y3 :: y2 :: y1 :: y0 :: rest)
  = match re_match items rest with
    | Some (groups, rest') => Some ((DY, [y3; y2; y1; y0]) :: groups, rest')
    | None => None
    end.
Proof.
  intros H. inversion H as [|? ? H3 Ha]; subst.
  inversion Ha as [|? ? H2 Hb]; subst.
  inversion Hb as [|? ? H1 Hc]; subst.
  inversion Hc as [|? ? H0 _]; subst.
  cbn [re_match alternatives first_alternative match_atoms atom_matches].
  rewrite !isdecimal_digit by assumption.
  now destruct (re_match items rest) as [[groups rest']|].
Qed.

Lemma forallb_seqZ (f : Z -> bool) lo len x :
  forallb f (seqZ lo len) = true -> lo <= x < lo + len -> f x = true.
Proof.
  intros H Hx. rewrite forallb_forall in H. apply H.
  apply list_elem_of_In, elem_of_seqZ. lia.
Qed.

Lemma month_day_rematch_all m d :
  1 <= m <= 12 -> 1 <= d <= 31 -> month_day_rematch m d = true.
Proof.
  intros Hm Hd.
  assert (Hall : forallb (fun m => forallb (month_day_rematch m) (seqZ 1 31))
                         (seqZ 1 12) = true) by (vm_compute; reflexivity).
  apply (forallb_seqZ _ 1 31 d); [|lia].
  apply (forallb_seqZ (fun m => forallb (month_day_rematch m) (seqZ 1 31))
           1 12 m Hall). lia.
Qed.

Lemma digit_value n :
  Z.of_N (48 + Z.to_N (n mod 10) - 48) = n mod 10.
Proof. pose proof (Z.mod_pos_bound n 10 ltac:(lia)). lia. Qed.

Lemma int_plain_digits cs :
  cs <> [] -> Forall (fun c => is_ascii_digit c = true) cs ->
  (length cs <= int_max_str_digits)%nat ->
  int cs = Ok (foldl (fun a c => 10 * a + Z.of_N (c - 48)) 0 cs).
Proof. exact (int_digits false cs). Qed.

Lemma int_zero_padded_2 n : 0 <= n <= 99 -> int (zero_padded 2 n) = Ok n.
Proof.
  intros Hn. cbn [zero_padded app].
  rewrite int_plain_digits by
    first [discriminate
          | (unfold int_max_str_digits; simpl; lia)
          | (repeat constructor; apply is_ascii_digit_mod)].
  cbn [foldl]. rewrite !digit_value. f_equal.
  Z.to_euclidean_division_equations; lia.
Qed.

Lemma int_zero_padded_4 n : 0 <= n <= 9999 -> int (zero_padded 4 n) = Ok n.
Proof.
  intros Hn. cbn [zero_padded app].
  rewrite int_plain_digits by
    first [discriminate
          | (unfold int_max_str_digits; simpl; lia)
          | (repeat constructor; apply is_ascii_digit_mod)].
  cbn [foldl]. rewrite !digit_value. f_equal.
  Z.to_euclidean_division_equations; lia.
Qed.

Lemma make_date_valid_ok dt :
  valid_date dt -> make_date (year dt) (month dt) (day dt) = Ok dt.
Proof.
  intros (Hy & Hm & Hd). unfold make_date.
  replace ((1 <=? year dt) && (year dt <=? 9999)) with true
    by (symmetry; apply andb_true_iff; rewrite !Z.leb_le; lia).
  replace ((1 <=? month dt) && (month dt <=? 12)) with true
    by (symmetry; apply andb_true_iff; rewrite !Z.leb_le; lia).
  replace ((1 <=? day dt)
           && (day dt <=? days_in_month (year dt) (month dt))) with true
    by (symmetry; apply andb_true_iff; rewrite !Z.leb_le; lia).
  now destruct dt.
Qed.

(** [strptime] reads a zero-filled printed date back as the date. *)
Lemma strptime_format dt :
  valid_date dt ->
  strptime (format_items ZeroFilled dt iso_items) (u "%Y-%m-%d") = Ok dt.
Proof.
  intros Hv. pose proof Hv as (Hy & Hm & Hd).
  pose proof (days_in_month_le (year dt) (month dt)) as Hdim.
  unfold strptime.
  change (parse_format (u "%Y-%m-%d")) with (Some iso_items).
  unfold iso_items. cbn [format_items format_directive].
  rewrite app_nil_r.
  pose proof (month_day_rematch_all (month dt) (day dt) ltac:(lia) ltac:(lia))
    as Hmd.
  apply bool_decide_eq_true in Hmd.
  change (zero_padded 4 (year dt))
    with [(48 + Z.to_N (year dt / 10 / 10 / 10 mod 10))%N;
          (48 + Z.to_N (year dt / 10 / 10 mod 10))%N;
          (48 + Z.to_N (year dt / 10 mod 10))%N;
          (48 + Z.to_N (year dt mod 10))%N] at 1.
  cbn [app].
  rewrite re_match_year by (repeat constructor; apply is_ascii_digit_mod).
  rewrite Hmd. cbn [read_groups].
  change [(48 + Z.to_N (year dt / 10 / 10 / 10 mod 10))%N;
          (48 + Z.to_N (year dt / 10 / 10 mod 10))%N;
          (48 + Z.to_N (year dt / 10 mod 10))%N;
          (48 + Z.to_N (year dt mod 10))%N]
    with (zero_padded 4 (year dt)).
  rewrite int_zero_padded_4, !int_zero_padded_2 by lia.
  cbn [bind]. now apply make_date_valid_ok.
Qed.

Lemma format_plain_zero_filled dt :
  1000 <= year dt <= 9999 ->
  format_items Plain dt iso_items = format_items ZeroFilled dt iso_items.
Proof.
  intros Hy. unfold iso_items. cbn [format_items format_directive].
  f_equal. cbn [zero_padded app drop_zeros].
  replace (48 + Z.to_N (year dt / 10 / 10 / 10 mod 10) =? 48)%N with false;
    [reflexivity|].
  symmetry. apply N.eqb_neq.
  assert (1 <= year dt / 10 / 10 / 10 mod 10)
    by (Z.to_euclidean_division_equations; lia).
  lia.
Qed.

Lemma format_no_space dt :
  Forall (fun c => isspace c = false) (format_items ZeroFilled dt iso_items).
Proof.
  unfold iso_items. cbn [format_items format_directive zero_padded app].
  repeat constructor;
    try (apply digit_not_space, is_ascii_digit_mod).
Qed.

(** A printed date whose year is zero-filled or has four digits is parsed
    to itself. *)
Lemma parse_date_fixed ys dt :
  valid_date dt -> ys = ZeroFilled \/ 1000 <= year dt ->
  _parse_date ys (format_items ys dt iso_items)
  = Ok (Some (format_items ys dt iso_items)).
Proof.
  intros Hv Hys.
  assert (Heq : format_items ys dt iso_items
                = format_items ZeroFilled dt iso_items).
  { destruct ys; [reflexivity|]. destruct Hys as [|Hys]; [discriminate|].
    apply format_plain_zero_filled. destruct Hv as (Hy & _). lia. }
  assert (Hstrip : strip (format_items ys dt iso_items)
                   = format_items ys dt iso_items)
    by (rewrite Heq; apply strip_fixed, format_no_space).
  assert (Hparse : strptime (format_items ys dt iso_items) (u "%Y-%m-%d")
                   = Ok dt)
    by (rewrite Heq; now apply strptime_format).
  assert (Hne : is_empty (format_items ys dt iso_items) = false)
    by (rewrite Heq; reflexivity).
  unfold _parse_date. rewrite Hstrip, Hne.
  unfold patterns. cbn [parse_with]. rewrite Hparse. cbn [bind].
  now rewrite strftime_iso.
Qed.

Lemma iso_plain_year dt :
  valid_date dt ->
  is_iso_date (format_items Plain dt iso_items) = true -> 1000 <= year dt.
Proof.
  intros (Hy & _) Hiso.
  destruct (Z_lt_le_dec (year dt) 1000) as [Hlt|]; [|assumption].
  exfalso. revert Hiso. unfold iso_items.
  cbn [format_items format_directive zero_padded app drop_zeros].
  replace (48 + Z.to_N (year dt / 10 / 10 / 10 mod 10))%N with 48%N
    by (assert (year dt / 10 / 10 / 10 mod 10 = 0)
          by (Z.to_euclidean_division_equations; lia); lia).
  change (48 =? 48)%N with true. cbv iota.
  repeat (match goal with
          | |- context [if ?b then _ else _] => destruct b
          end; cbn [app is_iso_date]);
    discriminate.
Qed.

(** X8 (dates are normalised once and for all): a date [_parse_date]
    returns in YYYY-MM-DD form is itself accepted by [_parse_date] and
    returned unchanged. *)
Theorem parse_date_idempotent (ys : year_style) (v d : str) :
  _parse_date ys v = Ok (Some d) -> is_iso_date d = true ->
  _parse_date ys d = Ok (Some d).
Proof.
  intros Hp Hiso.
  destruct (parse_date_cases ys v) as [[_ Hn]|[_ (dt & p & _ & Hs & Hd)]];
    [congruence|].
  rewrite Hd in Hp. injection Hp as <-.
  pose proof (strptime_valid _ _ _ Hs) as Hv.
  apply parse_date_fixed; [exact Hv|].
  destruct ys; [now left|right]. now apply iso_plain_year.
Qed.

Lemma parse_date_idempotent_witness :
  _parse_date Plain (u " 2026/1/5 ") = Ok (Some (u "2026-01-05"))
  /\ is_iso_date (u "2026-01-05") = true
  /\ _parse_date Plain (u "2026-01-05") = Ok (Some (u "2026-01-05")).
Proof.
  split; [vm_compute; reflexivity|]. split; [vm_compute; reflexivity|].
  apply (parse_date_idempotent Plain (u " 2026/1/5 ")); vm_compute; reflexivity.
Defined.

End DateRoundTrip.

(* ===================================================================== *)
(** * Every valid date, in every supported layout, is accepted            *)
(* ===================================================================== *)

Module DateLayouts.
Import Py PyText Normalizer Spec PyFacts NormalizerProofs TextFacts.
Import DateRoundTrip.

Lemma patterns_of_separators : patterns = pattern_of <$> separators.
Proof. reflexivity. Qed.

Lemma written_rematch_all sep pm pd m d :
  sep ∈ separators -> 1 <= m <= 12 -> 1 <= d <= 31 ->
  written_rematch sep pm pd m d = true.
Proof.
  intros Hsep Hm Hd.
  assert (Hall :
    forallb (fun sep =>
      forallb (fun pm =>
        forallb (fun pd =>
          forallb (fun m => forallb (written_rematch sep pm pd m) (seqZ 1 31))
                  (seqZ 1 12))
          [true; false])
        [true; false])
      separators = true) by (vm_compute; reflexivity).
  rewrite forallb_forall in Hall.
  specialize (Hall sep (proj1 (list_elem_of_In _ _) Hsep)).
  rewrite forallb_forall in Hall.
  assert (Hpm : In pm [true; false]) by (destruct pm; simpl; auto).
  specialize (Hall pm Hpm).
  rewrite forallb_forall in Hall.
  assert (Hpd : In pd [true; false]) by (destruct pd; simpl; auto).
  specialize (Hall pd Hpd).
  apply (forallb_seqZ _ 1 31 d); [|lia].
  apply (forallb_seqZ (fun m => forallb (written_rematch sep pm pd m)
                                        (seqZ 1 31)) 1 12 m Hall). lia.
Qed.

Lemma int_written padded n : 1 <= n <= 31 -> int (written padded n) = Ok n.
Proof.
  intros Hn. destruct padded; [apply int_zero_padded_2; lia|].
  assert (Hall : forallb (fun n => match int (written false n) with
                                   | Ok v => v =? n
                                   | Raise _ => false
                                   end) (seqZ 1 31) = true)
    by (vm_compute; reflexivity).
  pose proof (forallb_seqZ _ 1 31 n Hall ltac:(lia)) as H. cbv beta in H.
  destruct (int (written false n)) as [v|e]; [|discriminate].
  apply Z.eqb_eq in H. now subst.
Qed.

Lemma drop_zeros_forall (P : N -> Prop) s :
  Forall P s -> Forall P (drop_zeros s).
Proof.
  induction 1 as [|c r Hc Hr IH]; cbn [drop_zeros]; [constructor|].
  destruct (c =? 48)%N; [exact IH|now constructor].
Qed.

Lemma written_digits padded n :
  Forall (fun c => is_ascii_digit c = true) (written padded n).
Proof.
  assert (H : Forall (fun c => is_ascii_digit c = true) (zero_padded 2 n))
    by (cbn [zero_padded app]; repeat constructor; apply is_ascii_digit_mod).
  destruct padded; [exact H|]. now apply drop_zeros_forall.
Qed.

Lemma year_digits y :
  zero_padded 4 y
  = [(48 + Z.to_N (y / 10 / 10 / 10 mod 10))%N;
     (48 + Z.to_N (y / 10 / 10 mod 10))%N;
     (48 + Z.to_N (y / 10 mod 10))%N;
     (48 + Z.to_N (y mod 10))%N].
Proof. reflexivity. Qed.

Lemma date_text_no_space sep pm pd dt :
  sep ∈ separators ->
  Forall (fun c => isspace c = false) (date_text sep pm pd dt).
Proof.
  intros Hsep.
  assert (Hs : isspace sep = false).
  { unfold separators in Hsep.
    repeat (apply elem_of_cons in Hsep as [->|Hsep]; [reflexivity|]).
    now apply elem_of_nil in Hsep. }
  assert (Hd : forall s, Forall (fun c => is_ascii_digit c = true) s ->
                         Forall (fun c => isspace c = false) s).
  { intros s H. eapply Forall_impl; [exact H|]. apply digit_not_space. }
  unfold date_text. rewrite year_digits.
  apply Forall_app. split.
  - apply Hd. repeat constructor; apply is_ascii_digit_mod.
  - constructor; [exact Hs|]. apply Forall_app. split.
    + apply Hd, written_digits.
    + constructor; [exact Hs|]. apply Hd, written_digits.
Qed.

(** The pattern with the separator of the text reads the date. *)
Lemma strptime_written sep pm pd dt :
  sep ∈ separators -> valid_date dt ->
  strptime (date_text sep pm pd dt) (pattern_of sep) = Ok dt.
Proof.
  intros Hsep Hv. pose proof Hv as (Hy & Hm & Hd).
  pose proof (days_in_month_le (year dt) (month dt)) as Hdim.
  pose proof (written_rematch_all sep pm pd (month dt) (day dt) Hsep
                ltac:(lia) ltac:(lia)) as Hmd.
  apply bool_decide_eq_true in Hmd.
  assert (Hf : parse_format (pattern_of sep)
               = Some [Dir DY; Lit sep; Dir Dm; Lit sep; Dir Dd]).
  { unfold separators in Hsep.
    repeat (apply elem_of_cons in Hsep as [->|Hsep]; [reflexivity|]).
    now apply elem_of_nil in Hsep. }
  unfold strptime. rewrite Hf. unfold date_text. rewrite year_digits.
  cbn [app].
  rewrite re_match_year by (repeat constructor; apply is_ascii_digit_mod).
  rewrite Hmd. cbn [read_groups]. rewrite <- year_digits.
  rewrite int_zero_padded_4, !int_written by lia.
  cbn [bind]. now apply make_date_valid_ok.
Qed.

(** A pattern with another separator does not match. *)
Lemma strptime_other_separator sep sep' pm pd dt :
  sep ∈ separators -> sep' ∈ separators -> sep <> sep' ->
  strptime (date_text sep pm pd dt) (pattern_of sep') = Raise ValueError.
Proof.
  intros Hsep Hsep' Hne.
  assert (Hf : parse_format (pattern_of sep')
               = Some [Dir DY; Lit sep'; Dir Dm; Lit sep'; Dir Dd]).
  { unfold separators in Hsep'.
    repeat (apply elem_of_cons in Hsep' as [->|Hsep']; [reflexivity|]).
    now apply elem_of_nil in Hsep'. }
  unfold strptime. rewrite Hf. unfold date_text. rewrite year_digits.
  cbn [app].
  rewrite re_match_year by (repeat constructor; apply is_ascii_digit_mod).
  cbn [re_match].
  now rewrite (proj2 (N.eqb_neq sep sep') Hne).
Qed.

(** X17 (every layout of every date is accepted): a valid calendar date
    written year first with four digits, with hyphens, slashes or full
    stops, the month and the day each with or without their leading zero,
    is accepted by [_parse_date] and normalised to the date [strftime]
    prints for it with [%Y-%m-%d]: the same text for every layout, which
    is its YYYY-MM-DD form whenever years are printed zero-filled or the
    year is 1000 or later. *)
Theorem parse_date_complete
    (ys : year_style) (sep : N) (pm pd : bool) (dt : datetime) :
  valid_date dt -> sep ∈ separators ->
  _parse_date ys (date_text sep pm pd dt)
  = Ok (Some (format_items ys dt iso_items))
  /\ (ys = ZeroFilled \/ 1000 <= year dt ->
      format_items ys dt iso_items = date_text 45 true true dt).
Proof.
  intros Hv Hsep. split.
  - assert (Hstrip : strip (date_text sep pm pd dt) = date_text sep pm pd dt)
      by now apply strip_fixed, date_text_no_space.
    assert (Hne : is_empty (date_text sep pm pd dt) = false)
      by (unfold date_text; now rewrite year_digits).
    pose proof (strptime_written sep pm pd dt Hsep Hv) as Hok.
    assert (Hother : forall sep', sep' ∈ separators -> sep <> sep' ->
              strptime (date_text sep pm pd dt) (pattern_of sep')
              = Raise ValueError)
      by (intros; now apply strptime_other_separator).
    unfold _parse_date. rewrite Hstrip, Hne, patterns_of_separators.
    clear Hstrip Hne.
    revert Hok Hother. generalize (date_text sep pm pd dt) as text.
    intros text Hok Hother.
    assert (Hdec : forall sep', {sep = sep'} + {sep <> sep'})
      by (intros; apply N.eq_dec).
    assert (Hgen : forall seps,
              sep ∈ seps -> Forall (fun s => s ∈ separators) seps ->
              parse_with ys text (pattern_of <$> seps)
              = Ok (Some (format_items ys dt iso_items))).
    { induction seps as [|s seps IH]; intros Hin Hall.
      - now apply elem_of_nil in Hin.
      - inversion Hall as [|? ? Hs Hall']; subst.
        cbn [fmap list_fmap parse_with].
        change (list_fmap N str pattern_of seps) with (pattern_of <$> seps).
        destruct (Hdec s) as [<-|Hns].
        + rewrite Hok. cbn [bind]. now rewrite strftime_iso.
        + rewrite (Hother s Hs Hns). cbn [bind try_except_ValueError].
          apply IH; [|exact Hall'].
          apply elem_of_cons in Hin as [->|Hin]; [contradiction|exact Hin]. }
    apply Hgen; [exact Hsep|].
    apply Forall_forall. auto.
  - intros Hys. unfold date_text, written, iso_items.
    cbn [format_items format_directive]. rewrite app_nil_r.
    destruct ys; [reflexivity|].
    destruct Hys as [|Hy]; [discriminate|].
    destruct Hv as (Hy' & _).
    pose proof (format_plain_zero_filled dt ltac:(lia)) as Heq.
    unfold iso_items in Heq. cbn [format_items format_directive] in Heq.
    rewrite app_nil_r in Heq. exact Heq.
Qed.

Lemma parse_date_complete_witness :
  valid_date (mkDatetime 2026 1 5) /\ 47%N ∈ separators
  /\ date_text 47 false false (mkDatetime 2026 1 5) = u "2026/1/5"
  /\ _parse_date Plain (u "2026/1/5") = Ok (Some (u "2026-01-05")).
Proof.
  assert (Hv : valid_date (mkDatetime 2026 1 5))
    by (unfold valid_date; vm_compute; intuition discriminate).
  assert (Hs : 47%N ∈ separators) by (unfold separators; set_solver).
  split; [exact Hv|]. split; [exact Hs|]. split; [vm_compute; reflexivity|].
  exact (proj1 (parse_date_complete Plain 47 false false _ Hv Hs)).
Defined.

End DateLayouts.

(* ===================================================================== *)
(** * The normalised output, read again                                    *)
(* ===================================================================== *)

Module NormalizedOutput.
Import Py PyText Normalizer Main Spec Examples.
Import PyFacts NormalizerProofs TextFacts DateRoundTrip.

Lemma field_last raw1 raw2 k v name :
  maps_to k (u name) ->
  Forall (fun kv => ~ maps_to (fst kv) (u name)) raw2 ->
  field (raw1 ++ (k, v) :: raw2) name = strip v.
Proof.
  intros Hk Hlater. unfold field, get, unify. rewrite foldl_app. simpl.
  rewrite foldl_unify_step_other by exact Hlater.
  rewrite (unify_step_maps _ k v (u name) Hk).
  now rewrite lookup_insert_eq.
Qed.

Lemma parse_date_strip ys v : _parse_date ys (strip v) = _parse_date ys v.
Proof. unfold _parse_date. now rewrite strip_idem. Qed.

Lemma integer_of_to_str n s :
  to_str n = Ok s -> integer_of (strip s) = Some n.
Proof.
  intros H. pose proof (int_to_str n s H) as Hi.
  apply to_str_inv in H as [-> _].
  rewrite strip_fixed
    by (apply signed_digits_forall; [reflexivity|apply digit_not_space]).
  apply integer_of_plain; [|apply signed_digits_forall|exact Hi].
  - pose proof (decimal_digits_nonempty n).
    now destruct (sign_chars n), (decimal_digits n).
  - discriminate.
  - apply digit_not_comma.
Qed.

Ltac column_facts :=
  repeat first
    [ apply Forall_nil
    | apply Forall_cons; split
    | (cbn [fst]; vm_compute; reflexivity)
    | (cbn [fst]; let H := fresh in intros H; vm_compute in H; discriminate H) ].

(** The field a column of a row gives, no later column mapping to it. *)
Ltac field_at pre post k v name :=
  let H := fresh in
  assert (H : field (pre ++ (k, v) :: post) name = strip v)
    by (apply field_last; column_facts);
  cbn [app] in H; rewrite H in *; clear H.

(** X18 (the normalised output is not an input): the row [main] writes to
    normalized.csv for an accepted record whose date has the YYYY-MM-DD
    form is itself rejected by [normalize_row], for its empty item, since
    [item] is no known column name; with that one column renamed to
    [product] it is accepted, and gives the record back unchanged. *)
Theorem normalized_row_reread
    (ys : year_style) (raw0 : RawRow) (store0 : str) (r : NormalizedRow)
    (raw : RawRow) :
  normalize_row ys raw0 store0 = Ok (Some r, None) ->
  is_iso_date (date r) = true ->
  normalized_csv_row r = Ok raw ->
  (forall st, normalize_row ys raw st = Ok (None, Some (reason_of CheckItem)))
  /\ normalize_row ys (rename_column (u "item") (u "product") raw) (store r)
     = Ok (Some r, None).
Proof.
  intros Hacc Hiso Hraw.
  destruct (normalize_row_accepted_inv ys raw0 store0 r Hacc)
    as (dt & p & _ & Hs & Hi & _ & _ & Hr).
  pose proof (strptime_valid _ _ _ Hs) as Hv.
  assert (Hdate : _parse_date ys (date r) = Ok (Some (date r))).
  { rewrite Hr in Hiso |- *. cbn [date] in Hiso |- *.
    apply parse_date_fixed; [exact Hv|].
    destruct ys; [now left|right]. now apply iso_plain_year. }
  assert (Hitem : strip (item r) = item r /\ is_empty (item r) = false).
  { rewrite Hr. cbn [item]. split; [apply field_trimmed|exact Hi]. }
  destruct Hitem as [Hitem Hne].
  clear Hacc Hiso Hs Hi Hr Hv.
  unfold normalized_csv_row in Hraw.
  destruct (to_str (quantity r)) as [q|] eqn:Hq; [|discriminate Hraw].
  destruct (to_str (amount r)) as [a|] eqn:Ha; [|discriminate Hraw].
  cbn [bind] in Hraw. injection Hraw as <-.
  apply integer_of_to_str in Hq, Ha.
  split.
  - intros st.
    destruct (normalize_row_cases ys
                [(u "date", date r); (u "store", store r);
                 (u "item", item r); (u "quantity", q); (u "amount", a)] st)
      as (d & Hd & ->).
    field_at (@nil (str * str))
             [(u "store", store r); (u "item", item r);
              (u "quantity", q); (u "amount", a)]
             (u "date") (date r) "date".
    rewrite parse_date_strip, Hdate in Hd. injection Hd as <-.
    rewrite (field_absent _ "item") by column_facts.
    reflexivity.
  - assert (Hren :
      rename_column (u "item") (u "product")
        [(u "date", date r); (u "store", store r);
         (u "item", item r); (u "quantity", q); (u "amount", a)]
      = [(u "date", date r); (u "store", store r); (u "product", item r);
         (u "quantity", q); (u "amount", a)])
      by (vm_compute; reflexivity).
    rewrite Hren. clear Hren.
    destruct (normalize_row_cases ys
                [(u "date", date r); (u "store", store r);
                 (u "product", item r); (u "quantity", q); (u "amount", a)]
                (store r))
      as (d & Hd & ->).
    field_at (@nil (str * str))
             [(u "store", store r); (u "product", item r);
              (u "quantity", q); (u "amount", a)]
             (u "date") (date r) "date".
    rewrite parse_date_strip, Hdate in Hd. injection Hd as <-.
    unfold derived_amount.
    field_at [(u "date", date r); (u "store", store r)]
             [(u "quantity", q); (u "amount", a)]
             (u "product") (item r) "item".
    field_at [(u "date", date r); (u "store", store r);
              (u "product", item r)]
             [(u "amount", a)] (u "quantity") q "quantity".
    field_at [(u "date", date r); (u "store", store r);
              (u "product", item r); (u "quantity", q)]
             (@nil (str * str)) (u "amount") a "amount".
    rewrite Hitem, Hne, Hq, Ha. now destruct r.
Qed.

Lemma normalized_row_reread_witness :
  normalize_row Plain coffee_row (u "store_a") = Ok (Some coffee_record, None)
  /\ is_iso_date (date coffee_record) = true
  /\ normalized_csv_row coffee_record
     = Ok [ (u "date", u "2026-01-05"); (u "store", u "store_a");
            (u "item", u "Coffee"); (u "quantity", u "3");
            (u "amount", u "1500") ]
  /\ normalize_row Plain
       [ (u "date", u "2026-01-05"); (u "store", u "store_a");
         (u "item", u "Coffee"); (u "quantity", u "3");
         (u "amount", u "1500") ] (u "store_a")
     = Ok (None, Some (u "itemが空です"))
  /\ normalize_row Plain
       [ (u "date", u "2026-01-05"); (u "store", u "store_a");
         (u "product", u "Coffee"); (u "quantity", u "3");
         (u "amount", u "1500") ] (u "store_a")
     = Ok (Some coffee_record, None).
Proof.
  assert (H1 : normalize_row Plain coffee_row (u "store_a")
               = Ok (Some coffee_record, None)) by (vm_compute; reflexivity).
  assert (H2 : is_iso_date (date coffee_record) = true)
    by (vm_compute; reflexivity).
  assert (H3 : normalized_csv_row coffee_record
               = Ok [ (u "date", u "2026-01-05"); (u "store", u "store_a");
                      (u "item", u "Coffee"); (u "quantity", u "3");
                      (u "amount", u "1500") ]) by (vm_compute; reflexivity).
  destruct (normalized_row_reread Plain coffee_row (u "store_a")
              coffee_record _ H1 H2 H3) as [Ha Hb].
  split; [exact H1|]. split; [exact H2|]. split; [exact H3|].
  split; [exact (Ha (u "store_a"))|exact Hb].
Defined.

End NormalizedOutput.

(* ===================================================================== *)
(** * Tax on refunds                                                       *)
(* ===================================================================== *)

Module TaxSymmetry.
Import Py InvoiceGenerator.

Lemma binary_round_aux_opp prec emax s m e l :
  binary_round_aux prec emax (negb s) m e l
  = SFopp (binary_round_aux prec emax s m e l).
Proof.
  unfold binary_round_aux.
  destruct (shr_fexp prec emax m e l) as [mrs' e'].
  destruct (shr_fexp prec emax _ e' loc_Exact) as [mrs'' e''].
  destruct (shr_m mrs'') as [|q|q]; [reflexivity| |reflexivity].
  now destruct (e'' <=? emax - prec).
Qed.

Lemma binary_round_opp prec emax s m e :
  binary_round prec emax (negb s) m e
  = SFopp (binary_round prec emax s m e).
Proof.
  unfold binary_round.
  destruct (shl_align _ _ _) as [mz ez]. apply binary_round_aux_opp.
Qed.

Lemma float_of_int_opp n :
  n <> 0 ->
  float_of_int (- n) = bind (float_of_int n) (fun x => Ok (SFopp x)).
Proof.
  unfold float_of_int. destruct n as [|p|p]; [congruence| |]; intros _.
  - change (binary_normalize 53 1024 (- Z.pos p) 0 false)
      with (binary_round 53 1024 (negb false) p 0).
    change (binary_normalize 53 1024 (Z.pos p) 0 false)
      with (binary_round 53 1024 false p 0).
    rewrite binary_round_opp.
    now destruct (binary_round 53 1024 false p 0).
  - change (binary_normalize 53 1024 (- Z.neg p) 0 false)
      with (binary_round 53 1024 (negb true) p 0).
    change (binary_normalize 53 1024 (Z.neg p) 0 false)
      with (binary_round 53 1024 true p 0).
    rewrite binary_round_opp.
    now destruct (binary_round 53 1024 true p 0).
Qed.

Lemma float_mul_opp x y : float_mul (SFopp x) y = SFopp (float_mul x y).
Proof.
  unfold float_mul.
  destruct x as [sx|sx| |sx mx ex], y as [sy|sy| |sy my ey];
    cbn [SFopp SFmul]; try reflexivity;
    try (now destruct sx, sy).
  rewrite <- binary_round_aux_opp. now destruct sx, sy.
Qed.

Lemma round_opp x : round (SFopp x) = bind (round x) (fun t => Ok (- t)).
Proof.
  destruct x as [s|s| |s m e]; cbn [SFopp round bind]; try reflexivity.
  f_equal. destruct s; cbn [negb cond_Zopp]; lia.
Qed.

(** X19 (refunds): the tax on a negative subtotal is the negative of the
    tax on its absolute value, whatever the rate; where [_calc_tax]
    raises for the one it raises for the other. *)
Theorem calc_tax_opp (subtotal : Z) (rate : spec_float) :
  _calc_tax (- subtotal) rate
  = bind (_calc_tax subtotal rate) (fun tax => Ok (- tax)).
Proof.
  destruct (decide (subtotal = 0)) as [->|Hne].
  - unfold _calc_tax, float_mul.
    now destruct rate as [s|s| |s m e].
  - unfold _calc_tax. rewrite float_of_int_opp by exact Hne.
    destruct (float_of_int subtotal) as [x|e]; cbn [bind]; [|reflexivity].
    now rewrite float_mul_opp, round_opp.
Qed.

End TaxSymmetry.

(* ===================================================================== *)
(** * Store labels: the segments that are dropped                          *)
(* ===================================================================== *)

Module StoreLabelProofs.
Import Py CsvLoader Spec PyFacts CsvLoaderProofs.

Lemma split_parts_no_sep sep s :
  Forall (fun part => Forall (fun c => c <> sep) part) (split sep s).
Proof.
  induction s as [|c r IH]; simpl; [repeat constructor|].
  destruct (c =? sep)%N eqn:Hc; [constructor; [constructor|exact IH]|].
  apply N.eqb_neq in Hc.
  destruct (split sep r) as [|h t]; [repeat constructor; exact Hc|].
  inversion IH as [|? ? Hh Ht]; subst.
  constructor; [constructor; assumption|exact Ht].
Qed.

Lemma join_app sep parts1 parts2 :
  parts1 <> [] -> parts2 <> [] ->
  join sep (parts1 ++ parts2) = join sep parts1 ++ sep ++ join sep parts2.
Proof.
  intros H1 H2. induction parts1 as [|p [|q parts1] IH]; [done| |].
  - destruct parts2; [done|reflexivity].
  - change (join sep ((p :: q :: parts1) ++ parts2))
      with (p ++ sep ++ join sep ((q :: parts1) ++ parts2)).
    rewrite IH by discriminate.
    change (join sep (p :: q :: parts1))
      with (p ++ sep ++ join sep (q :: parts1)).
    now rewrite <- !app_assoc.
Qed.

(** X9 (the label of any file name): whenever the stem has three or more
    underscore-delimited segments, the store label is the stem without its
    last two segments, whatever they are, and without the underscore before
    them. *)
Theorem infer_store_name_drops_two (p : Path) :
  (3 <= length (split (chr "_") (stem p)))%nat ->
  exists s1 s2,
    Forall (fun c => c <> chr "_") s1
    /\ Forall (fun c => c <> chr "_") s2
    /\ stem p = infer_store_name p ++ u "_" ++ s1 ++ u "_" ++ s2.
Proof.
  intros Hlen. unfold infer_store_name.
  apply Nat.leb_le in Hlen as Hb. rewrite Hb.
  pose proof (split_parts_no_sep (chr "_") (stem p)) as Hparts.
  pose proof (join_split (chr "_") (stem p)) as Hjoin.
  remember (split (chr "_") (stem p)) as parts eqn:Hp. clear Hp Hb.
  rewrite <- (take_drop (length parts - 2) parts) in Hjoin, Hparts.
  apply Forall_app in Hparts as [_ Hlast].
  assert (Hd : length (drop (length parts - 2) parts) = 2%nat)
    by (rewrite length_drop; lia).
  destruct (drop (length parts - 2) parts) as [|s1 [|s2 [|x r]]];
    try discriminate Hd.
  inversion Hlast as [|? ? Hs1 Hl]; subst. inversion Hl as [|? ? Hs2 _]; subst.
  exists s1, s2. split; [exact Hs1|]. split; [exact Hs2|].
  rewrite join_app in Hjoin; [|intros Ht|discriminate].
  - now rewrite <- Hjoin.
  - apply (f_equal length) in Ht. rewrite length_take in Ht. simpl in Ht. lia.
Qed.

Lemma infer_store_name_drops_two_witness :
  (3 <= length (split (chr "_") (stem (mkPath (u "a_b_c.csv")))))%nat
  /\ infer_store_name (mkPath (u "a_b_c.csv")) = u "a"
  /\ exists s1 s2,
       Forall (fun c => c <> chr "_") s1
       /\ Forall (fun c => c <> chr "_") s2
       /\ stem (mkPath (u "a_b_c.csv"))
          = infer_store_name (mkPath (u "a_b_c.csv"))
            ++ u "_" ++ s1 ++ u "_" ++ s2.
Proof.
  split; [vm_compute; lia|]. split; [vm_compute; reflexivity|].
  apply infer_store_name_drops_two. vm_compute; lia.
Defined.

End StoreLabelProofs.

(* ===================================================================== *)
(** * Invoices: the summary that is read and the invoices that are built   *)
(* ===================================================================== *)

Module InvoiceRows.
Import Py PyText Normalizer InvoiceGenerator Spec PyFacts TextFacts.

(** ** [load_summary_by_store] *)

Lemma load_summary_cons row rest :
  load_summary_by_store (row :: rest)
  = if summary_kept row
    then bind (int (summary_total row)) (fun n =>
         bind (load_summary_by_store rest) (fun rows =>
         Ok ((summary_store row, n) :: rows)))
    else load_summary_by_store rest.
Proof.
  cbn [load_summary_by_store]. unfold summary_kept.
  fold (summary_store row) (summary_total row).
  now destruct (is_empty (summary_store row) || is_empty (summary_total row)).
Qed.

(** X10 (reading the summary): [load_summary_by_store] returns, in order,
    the trimmed store and the integer total of every row in which neither
    is empty, and skips the other rows; it raises [ValueError] as soon as
    the total of a kept row is not an integer literal, and nothing else
    makes it fail. *)
Theorem load_summary_by_store_spec (reader : list (gmap str str)) :
  match load_summary_by_store reader with
  | Ok rows =>
      Forall2 (fun row entry =>
                 fst entry = summary_store row
                 /\ int (summary_total row) = Ok (snd entry))
              (List.filter summary_kept reader) rows
  | Raise e =>
      e = ValueError
      /\ Exists (fun row => summary_kept row = true
                            /\ int (summary_total row) = Raise ValueError)
                reader
  end.
Proof.
  induction reader as [|row rest IH]; [constructor|].
  rewrite load_summary_cons. cbn [List.filter].
  destruct (summary_kept row) eqn:Hk.
  - destruct (int (summary_total row)) as [n|e] eqn:Hi; cbn [bind].
    + destruct (load_summary_by_store rest) as [rows|e]; cbn [bind].
      * constructor; [auto|exact IH].
      * destruct IH as [-> IH]. split; [reflexivity|].
        now apply Exists_cons_tl.
    + pose proof (int_raises _ _ Hi) as ->. split; [reflexivity|].
      apply Exists_cons_hd. split; [exact Hk|exact Hi].
  - destruct (load_summary_by_store rest) as [rows|e]; [exact IH|].
    destruct IH as [-> IH]. split; [reflexivity|]. now apply Exists_cons_tl.
Qed.

(** ** [build_invoices] *)

(** X11 (one invoice per summary row): when [build_invoices] returns,
    there is one invoice per summary row, in the order of the rows; each
    bills the store of its row for the subtotal of its row, carries the
    invoice number of that store and month, the issue date and the tax
    rate, the tax [_calc_tax] computes and their sum as total.  When it
    fails, [_calc_tax] failed on the subtotal of some row. *)
Theorem build_invoices_spec
    (issue : str) (summary_rows : list (str * Z)) (month : str)
    (rate : SpecFloat.spec_float) :
  match build_invoices issue summary_rows month rate with
  | Ok invoices =>
      Forall2 (fun row inv =>
                 bill_to inv = fst row
                 /\ subtotal inv = snd row
                 /\ invoice_no inv = _make_invoice_no (fst row) month
                 /\ issue_date inv = issue
                 /\ tax_rate inv = rate
                 /\ _calc_tax (snd row) rate = Ok (tax inv)
                 /\ total inv = subtotal inv + tax inv)
              summary_rows invoices
  | Raise e =>
      Exists (fun row => _calc_tax (snd row) rate = Raise e) summary_rows
  end.
Proof.
  induction summary_rows as [|[store sub] rest IH]; [constructor|].
  cbn [build_invoices].
  destruct (_calc_tax sub rate) as [t|e] eqn:Ht; cbn [bind].
  - destruct (build_invoices issue rest month rate) as [invs|e]; cbn [bind].
    + constructor; [|exact IH]. simpl. auto 10.
    + now apply Exists_cons_tl.
  - now apply Exists_cons_hd.
Qed.

(** ** Invoice numbers and file names *)

Lemma replace_forall (P : N -> Prop) old new s :
  Forall P new -> Forall P s -> Forall P (replace old new s).
Proof.
  intros Hn. induction 1 as [|c r Hc _ IH]; simpl; [constructor|].
  apply Forall_app. split; [|exact IH].
  destruct (c =? old)%N; [exact Hn|now constructor].
Qed.




End InvoiceRows.

(* ===================================================================== *)
(** * The driver: every row is kept once, summaries are sorted             *)
(* ===================================================================== *)

Module MainProofs.
Import Py PyText Normalizer Aggregator CsvLoader InvoiceGenerator Main Spec.
Import Examples PyFacts NormalizerProofs TextFacts InvoiceRows.

(** ** The inner loop *)

Lemma reason_of_truthy c : exists ch r, reason_of c = ch :: r.
Proof. destruct c; vm_compute; eauto. Qed.

(** One row: an accepted row adds its record and nothing else, a rejected
    row adds its entry and nothing else. *)
Lemma process_row_cases ys repr_row csv_name store acc line raw :
  (exists row,
      normalize_row ys raw store = Ok (Some row, None)
      /\ process_row ys repr_row csv_name store acc (line, raw)
         = Ok (mkCollected (normalized acc ++ [Some row]) (error_rows acc)))
  \/ (exists reason,
        normalize_row ys raw store = Ok (None, Some reason)
        /\ process_row ys repr_row csv_name store acc (line, raw)
           = bind (to_str line) (fun s =>
             Ok (mkCollected (normalized acc)
                   (error_rows acc ++
                      [ <[u "file" := csv_name]>
                        (<[u "line" := s]>
                        (<[u "store" := store]>
                        (<[u "reason" := reason]>
                        (<[u "raw" := repr_row raw]> ∅)))) ])))).
Proof.
  unfold process_row. cbn [fst snd].
  destruct (first_failing raw) as [c|] eqn:Hc.
  - right. exists (reason_of c).
    rewrite (normalize_row_rejects ys raw store c Hc).
    split; [reflexivity|]. cbn [bind snd].
    destruct (reason_of_truthy c) as (ch & r & ->). reflexivity.
  - left. destruct (normalize_row_accepts ys raw store Hc)
      as (dt & p & qty & amt & _ & _ & _ & _ & _ & Hr).
    rewrite Hr. eexists. split; reflexivity.
Qed.

Lemma omap_snoc {A B} (f : A -> option B) l x :
  omap f (l ++ [x]) = omap f l ++ match f x with Some y => [y] | None => [] end.
Proof. rewrite omap_app. simpl. now destruct (f x). Qed.

Lemma process_rows_spec ys repr_row csv_name store rows acc acc' :
  process_rows ys repr_row csv_name store acc rows = Ok acc' ->
  let srcs := (fun numbered => mkSourceRow csv_name store
                                 (fst numbered) (snd numbered)) <$> rows in
  exists errs,
    normalized acc' = normalized acc ++ (Some <$> accepted ys srcs)
    /\ error_rows acc' = error_rows acc ++ errs
    /\ Forall2 (describes repr_row) (rejected ys srcs) errs.
Proof.
  revert acc. induction rows as [|[line raw] rows IH]; intros acc; simpl.
  - intros [= <-]. exists []. rewrite !app_nil_r. repeat split. constructor.
  - destruct (process_row_cases ys repr_row csv_name store acc line raw)
      as [(row & Hn & ->)|(reason & Hn & ->)]; cbn [bind].
    + intros H. destruct (IH _ H) as (errs & Hnorm & Herr & Hdesc).
      cbn [normalized error_rows] in *. exists errs.
      unfold accepted, rejected in *. cbn [omap src_raw src_store].
      rewrite Hn. cbn [fmap list_fmap]. rewrite <- app_assoc in Hnorm.
      repeat split; assumption.
    + destruct (to_str line) as [s|e] eqn:Hs; cbn [bind]; [|discriminate].
      intros H. destruct (IH _ H) as (errs & Hnorm & Herr & Hdesc).
      cbn [normalized error_rows] in *. eexists (_ :: errs).
      unfold accepted, rejected in *. cbn [omap src_raw src_store].
      rewrite Hn. rewrite <- app_assoc in Herr.
      split; [exact Hnorm|]. split; [exact Herr|].
      constructor; [|exact Hdesc].
      unfold describes. cbn [fst snd src_file src_line src_store src_raw].
      repeat split; try (now simplify_map_eq).
      exists s. split; [exact Hs|]. now simplify_map_eq.
Qed.

(** ** The outer loop *)

Lemma accepted_app ys l1 l2 :
  accepted ys (l1 ++ l2) = accepted ys l1 ++ accepted ys l2.
Proof. apply omap_app. Qed.

Lemma rejected_app ys l1 l2 :
  rejected ys (l1 ++ l2) = rejected ys l1 ++ rejected ys l2.
Proof. apply omap_app. Qed.

Lemma process_files_spec ys repr_row files acc acc' :
  process_files ys repr_row acc files = Ok acc' ->
  exists errs,
    normalized acc' = normalized acc ++ (Some <$> accepted ys (all_rows files))
    /\ error_rows acc' = error_rows acc ++ errs
    /\ Forall2 (describes repr_row) (rejected ys (all_rows files)) errs.
Proof.
  revert acc. induction files as [|[csv_path reader] files IH]; intros acc.
  - simpl. intros [= <-]. exists []. rewrite !app_nil_r.
    repeat split. constructor.
  - cbn [process_files].
    destruct (process_rows ys repr_row (name csv_path)
                (infer_store_name csv_path) acc (iter_csv_rows reader))
      as [acc1|e] eqn:H1; cbn [bind]; [|discriminate].
    intros H2.
    destruct (process_rows_spec _ _ _ _ _ _ _ H1) as (errs1 & Hn1 & He1 & Hd1).
    destruct (IH _ H2) as (errs2 & Hn2 & He2 & Hd2).
    exists (errs1 ++ errs2).
    change (all_rows ((csv_path, reader) :: files))
      with (file_rows (csv_path, reader) ++ all_rows files).
    rewrite accepted_app, rejected_app, fmap_app, Hn2, He2, Hn1, He1.
    rewrite <- !app_assoc. repeat split.
    apply Forall2_app; assumption.
Qed.

Lemma accepted_rejected_length ys rows :
  (length (accepted ys rows) + length (rejected ys rows))%nat = length rows.
Proof.
  unfold accepted, rejected. induction rows as [|r rows IH]; [reflexivity|].
  csimpl.
  destruct (normalize_row_outcome ys (src_raw r) (src_store r))
    as [[row ->]|[reason ->]]; simpl; lia.
Qed.

(** The loops return when every line number can be written. *)
Lemma process_rows_total ys repr_row csv_name store rows acc :
  Forall (fun numbered => Z.abs (fst numbered) < 2 ^ 4300) rows ->
  exists acc', process_rows ys repr_row csv_name store acc rows = Ok acc'.
Proof.
  intros H. revert acc. induction H as [|[line raw] rows Hl _ IH]; intros acc.
  - eexists. reflexivity.
  - cbn [process_rows].
    destruct (process_row_cases ys repr_row csv_name store acc line raw)
      as [(row & _ & ->)|(reason & _ & ->)]; cbn [bind]; [apply IH|].
    rewrite (to_str_total line Hl). cbn [bind]. apply IH.
Qed.

Lemma iter_csv_rows_lines reader :
  Forall (fun numbered => 2 <= fst numbered < Z.of_nat (length reader) + 2)
         (iter_csv_rows reader).
Proof.
  apply Forall_forall. intros [line raw] Hin.
  apply list_elem_of_lookup in Hin as [i Hi].
  unfold iter_csv_rows in Hi. rewrite list_lookup_imap in Hi.
  destruct (reader !! i) as [row|] eqn:Hr; [|discriminate].
  apply lookup_lt_Some in Hr. injection Hi as <- _. simpl. lia.
Qed.

Lemma process_files_total ys repr_row files acc :
  Forall (fun file => Z.of_nat (length (snd file)) + 2 <= 2 ^ 4300) files ->
  exists acc', process_files ys repr_row acc files = Ok acc'.
Proof.
  intros H. revert acc.
  induction H as [|[csv_path reader] files Hl _ IH]; intros acc.
  - eexists. reflexivity.
  - cbn [process_files].
    destruct (process_rows_total ys repr_row (name csv_path)
                (infer_store_name csv_path) (iter_csv_rows reader) acc)
      as [acc1 ->].
    + eapply Forall_impl; [apply iter_csv_rows_lines|].
      intros [line raw] Hline. simpl in *. lia.
    + cbn [bind]. apply IH.
Qed.

(** X13 (no row lost, none duplicated): the two loops of [main] return
    whenever every file has at most [2^4300 - 2] rows, and then [normalized]
    holds exactly the records of the accepted rows, each a record and never
    [None], and [error_rows] exactly one entry per rejected row with its
    file, line number, store label, reason and raw text, both in the order
    of the files and of their rows; together they are as many as the
    rows. *)
Theorem collect_partitions
    (ys : year_style) (repr_row : RawRow -> str)
    (files : list (Path * list ReaderRow)) :
  (Forall (fun file => Z.of_nat (length (snd file)) + 2 <= 2 ^ 4300) files ->
   exists acc, collect ys repr_row files = Ok acc)
  /\ (forall acc,
        collect ys repr_row files = Ok acc ->
        normalized acc = Some <$> accepted ys (all_rows files)
        /\ Forall2 (describes repr_row) (rejected ys (all_rows files))
                   (error_rows acc)
        /\ (length (normalized acc) + length (error_rows acc))%nat
           = length (all_rows files)).
Proof.
  split; [apply process_files_total|].
  intros acc H. unfold collect in H.
  destruct (process_files_spec _ _ _ _ _ H) as (errs & Hn & He & Hd).
  cbn [normalized error_rows app] in Hn, He. subst errs.
  split; [exact Hn|]. split; [exact Hd|].
  rewrite Hn, length_fmap, <- (Forall2_length _ _ _ Hd).
  apply accepted_rejected_length.
Qed.

(** ** Summary rows *)

Lemma str_le_total a b : str_le a b = true \/ str_le b a = true.
Proof.
  revert b. induction a as [|x a IH]; intros [|y b]; simpl; auto.
  destruct (N.compare_spec x y) as [->|Hlt|Hgt].
  - rewrite N.ltb_irrefl, N.eqb_refl. simpl. apply IH.
  - left. apply N.ltb_lt in Hlt. now rewrite Hlt.
  - right. apply N.ltb_lt in Hgt. now rewrite Hgt.
Qed.

Global Instance item_le_total : Total item_le.
Proof.
  intros a b. unfold item_le, item_leb.
  destruct (decide (a.1 = b.1)) as [Heq|Hne].
  - rewrite (decide_True (P := b.1 = a.1)) by done.
    destruct (Z.le_ge_cases a.2 b.2); [left|right]; now apply Z.leb_le.
  - rewrite (decide_False (P := b.1 = a.1)) by done. apply str_le_total.
Qed.

Lemma sorted_strict items :
  Sorted item_le items -> NoDup items.*1 ->
  Sorted (fun a b => str_lt a.1 b.1) items.
Proof.
  induction 1 as [|a l Hs IH Hhd]; [constructor|].
  rewrite fmap_cons, NoDup_cons. intros [Hnotin Hnd].
  constructor; [now apply IH|].
  destruct Hhd as [|b l' Hab]; constructor.
  unfold item_le, item_leb in Hab.
  assert (Hne : a.1 <> b.1).
  { intros Heq. apply Hnotin. rewrite Heq, fmap_cons. apply elem_of_cons. auto. }
  rewrite decide_False in Hab by exact Hne. now split.
Qed.

Lemma summary_rows_of_spec key items rows :
  key <> u "total_amount" ->
  summary_rows_of key items = Ok rows ->
  Forall2 (fun item row =>
             row !! key = Some item.1
             /\ exists s, to_str item.2 = Ok s
                          /\ row !! u "total_amount" = Some s)
          items rows.
Proof.
  intros Hkey. revert rows. induction items as [|[k v] items IH]; intros rows.
  - simpl. intros [= <-]. constructor.
  - cbn [summary_rows_of].
    destruct (to_str v) as [s|e] eqn:Hs; cbn [bind]; [|discriminate].
    destruct (summary_rows_of key items) as [rows'|e]; cbn [bind];
      [|discriminate].
    intros [= <-]. constructor; [|now apply IH].
    split.
    + rewrite lookup_insert_ne by congruence. apply lookup_insert_eq.
    + exists s. split; [exact Hs|]. apply lookup_insert_eq.
Qed.

Lemma summary_rows_of_total key items :
  Forall (fun item => Z.abs item.2 < 2 ^ 4300) items ->
  exists rows, summary_rows_of key items = Ok rows.
Proof.
  induction 1 as [|[k v] items Hv _ [rows IH]]; [eexists; reflexivity|].
  cbn [summary_rows_of]. rewrite (to_str_total v Hv), IH. cbn [bind].
  eexists. reflexivity.
Qed.

(** X14 (summaries are sorted and complete): for a key column other than
    [total_amount], the summary rows list the entries of the totals mapping,
    each once, by increasing key in code point order, with the key in the
    key column and [str] of the total in [total_amount]; they are produced
    whenever every total is below [2^4300] in absolute value. *)
Theorem summary_rows_spec (key : str) (d : gmap str Z) :
  key <> u "total_amount" ->
  (forall k v, (k, v) ∈ sorted (map_to_list d) <-> d !! k = Some v)
  /\ Sorted (fun a b => str_lt a.1 b.1) (sorted (map_to_list d))
  /\ (map_Forall (fun _ v => Z.abs v < 2 ^ 4300) d ->
      exists rows, summary_rows key d = Ok rows)
  /\ (forall rows,
        summary_rows key d = Ok rows ->
        Forall2 (fun item row =>
                   row !! key = Some item.1
                   /\ exists s, to_str item.2 = Ok s
                                /\ row !! u "total_amount" = Some s)
                (sorted (map_to_list d)) rows).
Proof.
  intros Hkey.
  pose proof (merge_sort_Permutation item_le (map_to_list d)) as Hperm.
  fold (sorted (map_to_list d)) in Hperm.
  split; [|split; [|split]].
  - intros k v. rewrite Hperm. apply elem_of_map_to_list.
  - apply sorted_strict; [apply (Sorted_merge_sort item_le)|].
    rewrite Hperm. apply NoDup_fst_map_to_list.
  - intros Hall. apply summary_rows_of_total.
    apply Forall_forall. intros [k v] Hin. rewrite Hperm in Hin.
    apply elem_of_map_to_list in Hin. exact (Hall k v Hin).
  - intros rows. now apply summary_rows_of_spec.
Qed.

Lemma summary_rows_spec_witness :
  u "store" <> u "total_amount"
  /\ Sorted (fun a b => str_lt a.1 b.1)
            (sorted (map_to_list ({[ u "b" := 50; u "a" := 350 ]} : gmap str Z))).
Proof.
  assert (H : u "store" <> u "total_amount") by discriminate.
  split; [exact H|].
  exact (proj1 (proj2 (summary_rows_spec (u "store") _ H))).
Defined.

(** ** The summary, written and read back *)

Lemma summary_row_kept k s :
  s <> [] -> strip s = s ->
  let row : gmap str str := <[u "total_amount" := s]> (<[u "store" := k]> ∅) in
  summary_store row = strip k /\ summary_total row = s
  /\ summary_kept row = negb (is_empty (strip k)).
Proof.
  intros Hne Hs row.
  assert (H1 : summary_store row = strip k).
  { unfold summary_store, get, row.
    rewrite lookup_insert_ne by discriminate. now rewrite lookup_insert_eq. }
  assert (H2 : summary_total row = s).
  { unfold summary_total, get, row. now rewrite lookup_insert_eq. }
  split; [exact H1|]. split; [exact H2|].
  unfold summary_kept. rewrite H1, H2.
  destruct s; [done|]. now rewrite orb_false_r.
Qed.

Lemma load_summary_rows_of items rows :
  summary_rows_of (u "store") items = Ok rows ->
  load_summary_by_store rows = Ok (omap summary_entry items).
Proof.
  revert rows. induction items as [|[k v] items IH]; intros rows.
  - simpl. now intros [= <-].
  - cbn [summary_rows_of].
    destruct (to_str v) as [s|e] eqn:Hs; cbn [bind]; [|discriminate].
    destruct (summary_rows_of (u "store") items) as [rows'|e]; cbn [bind];
      [|discriminate].
    intros [= <-]. rewrite load_summary_cons.
    pose proof (int_to_str v s Hs) as Hint.
    apply to_str_inv in Hs as [Hs _].
    assert (Hne : s <> []).
    { rewrite Hs. pose proof (decimal_digits_nonempty v).
      now destruct (sign_chars v), (decimal_digits v). }
    assert (Hstrip : strip s = s).
    { rewrite Hs. apply strip_fixed, signed_digits_forall;
        [reflexivity|apply digit_not_space]. }
    destruct (summary_row_kept k s Hne Hstrip) as (-> & -> & ->).
    rewrite (IH rows' eq_refl), Hint. csimpl. unfold summary_entry.
    cbn [fst snd bind]. now destruct (is_empty (strip k)).
Qed.

(** X15 (from the totals to the invoices' input): the rows [main] writes
    to summary_by_store.csv, handed to [load_summary_by_store], give back
    the totals by increasing store: every store with its label trimmed and
    its total unchanged, except that a store whose label is blank is left
    out. *)
Theorem summary_read_back (d : gmap str Z) (rows : list (gmap str str)) :
  summary_rows (u "store") d = Ok rows ->
  load_summary_by_store rows
  = Ok (omap summary_entry (sorted (map_to_list d))).
Proof. apply load_summary_rows_of. Qed.

Lemma summary_read_back_witness :
  summary_rows (u "store") {[ u "" := 7; u " b " := 50; u "a" := 350 ]}
    = Ok [ <[u "total_amount" := u "7"]> (<[u "store" := u ""]> ∅);
           <[u "total_amount" := u "50"]> (<[u "store" := u " b "]> ∅);
           <[u "total_amount" := u "350"]> (<[u "store" := u "a"]> ∅) ]
  /\ load_summary_by_store
       [ <[u "total_amount" := u "7"]> (<[u "store" := u ""]> ∅);
         <[u "total_amount" := u "50"]> (<[u "store" := u " b "]> ∅);
         <[u "total_amount" := u "350"]> (<[u "store" := u "a"]> ∅) ]
     = Ok [(u "b", 50); (u "a", 350)].
Proof.
  assert (H : summary_rows (u "store")
                {[ u "" := 7; u " b " := 50; u "a" := 350 ]}
              = Ok [ <[u "total_amount" := u "7"]> (<[u "store" := u ""]> ∅);
                     <[u "total_amount" := u "50"]>
                       (<[u "store" := u " b "]> ∅);
                     <[u "total_amount" := u "350"]>
                       (<[u "store" := u "a"]> ∅) ])
    by (vm_compute; reflexivity).
  split; [exact H|].
  rewrite (summary_read_back _ _ H). vm_compute; reflexivity.
Defined.

(** ** From the rows to the totals *)

Lemma accepted_store ys rows row :
  row ∈ accepted ys rows ->
  exists r, r ∈ rows /\ store row = src_store r
            /\ normalize_row ys (src_raw r) (src_store r) = Ok (Some row, None).
Proof.
  unfold accepted. rewrite list_elem_of_omap. intros (r & Hr & Hacc).
  exists r. split; [exact Hr|].
  destruct (normalize_row ys (src_raw r) (src_store r))
    as [[[row'|] [reason|]]|e] eqn:Hn; try discriminate Hacc.
  injection Hacc as ->. split; [|reflexivity].
  destruct (normalize_row_accepted_inv ys _ _ row Hn)
    as (dt & p & _ & _ & _ & _ & _ & ->).
  reflexivity.
Qed.

Lemma accepted_of_row ys rows r row :
  r ∈ rows ->
  normalize_row ys (src_raw r) (src_store r) = Ok (Some row, None) ->
  row ∈ accepted ys rows.
Proof.
  intros Hr Hn. unfold accepted. apply list_elem_of_omap.
  exists r. split; [exact Hr|]. now rewrite Hn.
Qed.

Lemma all_rows_file files r :
  r ∈ all_rows files ->
  exists file, file ∈ files
    /\ src_file r = name file.1 /\ src_store r = infer_store_name file.1.
Proof.
  unfold all_rows. rewrite list_elem_of_In, in_flat_map.
  intros (file & Hf & Hr). exists file.
  split; [now apply list_elem_of_In|].
  apply list_elem_of_In in Hr. unfold file_rows in Hr.
  apply list_elem_of_fmap in Hr as (numbered & -> & _). auto.
Qed.

(** X16 (from the files to the totals): when the loops of [main] have
    returned, [aggregate] runs on records only; the entry of a store in
    [by_store] is the sum of the amounts of its accepted rows; and a store
    has an entry exactly when some row of the input is accepted under that
    store label, which is then the label [infer_store_name] gives for the
    file of that row. *)
Theorem collect_totals
    (ys : year_style) (repr_row : RawRow -> str)
    (files : list (Path * list ReaderRow)) (acc : Collected) :
  collect ys repr_row files = Ok acc ->
  exists agg,
    aggregate_collected acc = Some agg
    /\ (forall k, by_store agg !! k
                  = expected_total store k (accepted ys (all_rows files)))
    /\ (forall k,
          is_Some (by_store agg !! k)
          <-> exists r row,
                r ∈ all_rows files /\ src_store r = k
                /\ normalize_row ys (src_raw r) k = Ok (Some row, None))
    /\ (forall r, r ∈ all_rows files ->
          exists file, file ∈ files
            /\ src_file r = name file.1
            /\ src_store r = infer_store_name file.1).
Proof.
  intros H. unfold collect in H.
  destruct (process_files_spec _ _ _ _ _ H) as (errs & Hn & _ & _).
  cbn [normalized app] in Hn.
  exists (aggregate (accepted ys (all_rows files))).
  split; [|split; [|split]].
  - unfold aggregate_collected. rewrite Hn.
    now rewrite mapM_fmap_Some by reflexivity.
  - intros k. apply AggregatorTotals.aggregate_lookup.
  - intros k.
    rewrite (proj1 (AggregatorTotals.aggregate_lookup _ k)).
    unfold expected_total. split.
    + case_decide as Hin; [|intros [? [=]]]. intros _.
      apply list_elem_of_fmap in Hin as (row & -> & Hrow).
      destruct (accepted_store ys _ row Hrow) as (r & Hr & Hs & Hnr).
      exists r, row. rewrite Hs. auto.
    + intros (r & row & Hr & <- & Hnr).
      rewrite decide_True; [eauto|].
      apply list_elem_of_fmap. exists row.
      split; [|now apply (accepted_of_row ys _ r)].
      destruct (normalize_row_accepted_inv ys _ _ row Hnr)
        as (dt & p & _ & _ & _ & _ & _ & ->).
      reflexivity.
  - apply all_rows_file.
Qed.

Lemma collect_partitions_witness :
  exists acc,
    collect Plain (fun _ => u "{...}") example_files = Ok acc
    /\ normalized acc
       = Some <$> accepted Plain (all_rows example_files)
    /\ Forall2 (describes (fun _ => u "{...}"))
               (rejected Plain (all_rows example_files)) (error_rows acc)
    /\ (length (normalized acc) + length (error_rows acc))%nat
       = length (all_rows example_files).
Proof.
  eexists. split; [vm_compute; reflexivity|].
  apply (proj2 (collect_partitions Plain (fun _ => u "{...}") example_files)).
  vm_compute; reflexivity.
Defined.

Lemma collect_totals_witness :
  exists acc,
    collect Plain (fun _ => u "{...}") example_files = Ok acc
    /\ exists agg,
         aggregate_collected acc = Some agg
         /\ by_store agg !! u "store_a" = Some 1500.
Proof.
  assert (Hc : { acc | collect Plain (fun _ => u "{...}") example_files
                       = Ok acc })
    by (eexists; vm_compute; reflexivity).
  destruct Hc as [acc Hc]. exists acc. split; [exact Hc|].
  destruct (collect_totals Plain _ example_files acc Hc)
    as (agg & Hagg & Hk & _).
  exists agg. split; [exact Hagg|]. rewrite Hk. vm_compute; reflexivity.
Defined.

End MainProofs.
